(** * YouTube video summarizer: the pipeline of [app.py]

    A shallow embedding of the three stages of [app.py] -- the Resolver
    [extract_video_id], the Acquirer [get_transcript] and the Summarizer
    [generate_summary] -- and of [main], which composes them behind the
    Streamlit page.

    Conventions of the embedding.
    - A Python [str] is a sequence of code points.  It is held as the
      [string] of its UTF-8 encoding, one [ascii] per byte, as the string
      literals of this file are.  Its length [len] counts code points, not
      bytes, and the slice [s[:n]] is [slice_to n s], its first [n] code
      points; a [string] that is not well-formed UTF-8 stands for no [str].
      Concatenation, comparison, [str.join], [str.replace] with a given
      pattern and the search for a pattern made of ASCII characters are the
      same on the encoding as on the code points.
    - The external libraries (youtube_transcript_api, transformers, requests,
      BeautifulSoup, streamlit's widgets) are not part of the program: they
      are the fields of a [World] the program is run against, and every call
      to one of them is recorded, in order, in a trace of [event]s.
    - A raised exception is a value of [Exception], which stands for the
      exceptions of Python's class [Exception], the ones the handlers
      [except Exception] of the program catch; a computation that may raise
      returns [Exception + A].
    - The call [st.set_page_config] at import time is not part of [main] and
      is left out. *)

From Stdlib Require Import Strings.String Strings.Ascii Lists.List Bool.Bool.
From Stdlib Require Import Arith.PeanoNat ZArith.ZArith micromega.Lia.
Import ListNotations.

Local Open Scope list_scope.
Local Open Scope string_scope.

(** ** Regular expressions, as far as the source uses them *)

Module Re.

(** The constructs that occur in the three patterns of [extract_video_id]:
    literals, a character class, concatenation, alternation, the counted
    repetition [{n}], the greedy star of a one-character matcher (the source
    has [.*] only) and the capturing group (the source has one group per
    pattern, group 1). *)
Inductive regex : Type :=
| Lit (l : string)
| CharSet (p : ascii -> bool)
| Seq (r1 r2 : regex)
| Alt (r1 r2 : regex)
| Repeat (n : nat) (r : regex)
| Star (p : ascii -> bool)
| Group (r : regex).

(** A match object; the source reads group 1 only. *)
Record Match : Type := { group1 : option string }.

(** [lit_match l s]: the rest of [s] after the literal [l], if [s] starts
    with it. *)
Fixpoint lit_match (l s : string) : option string :=
  match l with
  | EmptyString => Some s
  | String a l' =>
      match s with
      | EmptyString => None
      | String c s' => if Ascii.eqb a c then lit_match l' s' else None
      end
  end.

Section Matcher.
Context {R : Type}.

(** A continuation receives the rest of the input and the current content
    of group 1. *)
Definition cont : Type := string -> option string -> option R.

(** Greedy star: take as many characters as possible, give one back at a
    time while the continuation fails. *)
Fixpoint star_match (p : ascii -> bool) (s : string) (g : option string)
         (k : cont) : option R :=
  match s with
  | EmptyString => k s g
  | String c s' =>
      if p c then
        match star_match p s' g k with
        | Some x => Some x
        | None => k s g
        end
      else k s g
  end.

(** Backtracking matcher anchored at the start of [s]: alternatives are
    tried left to right, as Python's [re] does. *)
Fixpoint rmatch (r : regex) (s : string) (g : option string) (k : cont)
         {struct r} : option R :=
  match r with
  | Lit l =>
      match lit_match l s with
      | Some s' => k s' g
      | None => None
      end
  | CharSet p =>
      match s with
      | String c s' => if p c then k s' g else None
      | EmptyString => None
      end
  | Seq r1 r2 => rmatch r1 s g (fun s' g' => rmatch r2 s' g' k)
  | Alt r1 r2 =>
      match rmatch r1 s g k with
      | Some x => Some x
      | None => rmatch r2 s g k
      end
  | Repeat n r1 =>
      (fix rep (n : nat) (s : string) (g : option string) : option R :=
         match n with
         | O => k s g
         | S n' => rmatch r1 s g (fun s' g' => rep n' s' g')
         end) n s g
  | Star p => star_match p s g k
  | Group r1 =>
      rmatch r1 s g
        (fun s' _ => k s' (Some (substring 0 (String.length s - String.length s') s)))
  end.
End Matcher.

(** [re.match]: the pattern anchored at the start of the string. *)
Definition re_match (r : regex) (s : string) : option Match :=
  rmatch r s None (fun _ g => Some {| group1 := g |}).

(** [re.search]: the first position, from the left, where the pattern
    matches. *)
Fixpoint re_search (r : regex) (s : string) : option Match :=
  match re_match r s with
  | Some m => Some m
  | None =>
      match s with
      | EmptyString => None
      | String _ s' => re_search r s'
      end
  end.

End Re.

Import Re.

(** ** The Resolver *)

Definition in_range (lo hi : nat) (c : ascii) : bool :=
  (lo <=? nat_of_ascii c)%nat && (nat_of_ascii c <=? hi)%nat.

(** The class [[0-9A-Za-z_-]]. *)
Definition token_char (c : ascii) : bool :=
  in_range 48 57 c || in_range 65 90 c || in_range 97 122 c
  || Ascii.eqb c "_" || Ascii.eqb c "-".

(** [.]: any character but a newline. *)
Definition dot (c : ascii) : bool := negb (Ascii.eqb c "010").

(** [[0-9A-Za-z_-]{11}] in group 1. *)
Definition token_group : regex := Group (Repeat 11 (CharSet token_char)).

(** [r'(?:v=|\/)([0-9A-Za-z_-]{11}).*'] *)
Definition pattern_watch : regex :=
  Seq (Alt (Lit "v=") (Lit "/")) (Seq token_group (Star dot)).

(** [r'(?:embed\/)([0-9A-Za-z_-]{11})'] *)
Definition pattern_embed : regex := Seq (Lit "embed/") token_group.

(** [r'(?:shorts\/)([0-9A-Za-z_-]{11})'] *)
Definition pattern_shorts : regex := Seq (Lit "shorts/") token_group.

Definition patterns : list regex :=
  [pattern_watch; pattern_embed; pattern_shorts].

(** The loop [for pattern in patterns: ... return match.group(1)], with the
    final [return None]. *)
Fixpoint first_match (ps : list regex) (url : string) : option string :=
  match ps with
  | [] => None
  | pattern :: ps' =>
      match re_search pattern url with
      | Some m => group1 m
      | None => first_match ps' url
      end
  end.

Definition extract_video_id (url : string) : option string :=
  first_match patterns url.

(** ** Python values the program handles *)

(** An exception object, as far as the program looks at it: [str(e)]. *)
Record Exception : Type := { str : string }.

(** A value stored in a dictionary of the transcript: a [str], or anything
    else (the [start] and [duration] of a segment are floats). *)
Inductive pyval : Type :=
| PStr (s : string)
| POther.

(** A dictionary with string keys, in insertion order. *)
Definition dict (V : Type) : Type := list (string * V).

(** [d[key]]: raises [KeyError(key)], whose [str] is the quoted key. *)
Fixpoint getitem {V : Type} (d : dict V) (key : string) : Exception + V :=
  match d with
  | [] => inl {| str := "'" ++ key ++ "'" |}
  | (k, v) :: d' => if String.eqb k key then inr v else getitem d' key
  end.

(** [l[0]] *)
Definition index0 {A : Type} (l : list A) : Exception + A :=
  match l with
  | [] => inl {| str := "list index out of range" |}
  | x :: _ => inr x
  end.

(** The comprehension [[item[key] for item in items]]: the first missing key
    raises. *)
Fixpoint items_at {V : Type} (items : list (dict V)) (key : string)
  : Exception + list V :=
  match items with
  | [] => inr []
  | item :: items' =>
      match getitem item key with
      | inl e => inl e
      | inr v =>
          match items_at items' key with
          | inl e => inl e
          | inr vs => inr (v :: vs)
          end
      end
  end.

(** [sep.join(xs)] on a list of strings. *)
Fixpoint join (sep : string) (xs : list string) : string :=
  match xs with
  | [] => ""
  | [x] => x
  | x :: xs' => x ++ sep ++ join sep xs'
  end.

(** The strings of a list of values, or the [TypeError] of [str.join] when an
    item is not a [str]. *)
Fixpoint all_str (vs : list pyval) : Exception + list string :=
  match vs with
  | [] => inr []
  | PStr s :: vs' =>
      match all_str vs' with
      | inl e => inl e
      | inr ss => inr (s :: ss)
      end
  | POther :: _ => inl {| str := "sequence item: expected str instance" |}
  end.

(** [sep.join(vs)] *)
Definition str_join (sep : string) (vs : list pyval) : Exception + string :=
  match all_str vs with
  | inl e => inl e
  | inr ss => inr (join sep ss)
  end.

(** [s.replace(old, new)] for a non-empty [old]: occurrences are replaced
    from the left and do not overlap; [skip] counts the characters of a
    replaced occurrence still to be dropped. *)
Fixpoint replace_from (skip : nat) (old new s : string) : string :=
  match s with
  | EmptyString => EmptyString
  | String c s' =>
      match skip with
      | S k => replace_from k old new s'
      | O =>
          if String.prefix old s
          then new ++ replace_from (String.length old - 1) old new s'
          else String c (replace_from 0 old new s')
      end
  end.

Definition replace (old new s : string) : string := replace_from 0 old new s.

(** A byte [10xxxxxx] of the encoding: it continues the code point that the
    bytes before it started. *)
Definition is_continuation (c : ascii) : bool :=
  (128 <=? nat_of_ascii c)%nat && (nat_of_ascii c <? 192)%nat.

(** [len(s)]: the number of code points, one for every byte that starts
    one. *)
Fixpoint len (s : string) : nat :=
  match s with
  | EmptyString => 0
  | String c s' => if is_continuation c then len s' else S (len s')
  end.

(** [s[:n]]: the first [n] code points, each with all of its bytes. *)
Fixpoint slice_to (n : nat) (s : string) : string :=
  match s with
  | EmptyString => EmptyString
  | String c s' =>
      if is_continuation c then String c (slice_to n s')
      else
        match n with
        | O => EmptyString
        | S n' => String c (slice_to n' s')
        end
  end.

(** Truth value of a [str], and of a value that is a [str] or [None]. *)
Definition truthy (s : string) : bool := negb (String.eqb s "").

Definition truthy_opt (o : option string) : bool :=
  match o with
  | Some s => truthy s
  | None => false
  end.

(** ** The world outside the program *)

(** The callable that [transformers.pipeline] returns: text, [max_length],
    [min_length], [do_sample]. *)
Definition Summarizer : Type :=
  string -> Z -> Z -> bool -> Exception + list (dict string).

Record World : Type := {
  (** what the user typed in the text input, and whether the button was
      pressed *)
  st_text_input : string;
  st_button : bool;
  (** [requests.get(url).content] *)
  requests_get : string -> Exception + string;
  (** [BeautifulSoup(content, 'html.parser').find('title')], as the text of
      the tag found *)
  soup_find_title : string -> Exception + option string;
  (** [YouTubeTranscriptApi.get_transcript(video_id)] *)
  YouTubeTranscriptApi_get_transcript :
    string -> Exception + list (dict pyval);
  (** [pipeline(task, model=..., tokenizer=...)] *)
  pipeline : string -> string -> string -> Exception + Summarizer
}.

(** The calls to streamlit, in the order the page issues them.  The nesting
    of the context managers ([with col1:], [with st.spinner(...):]) is layout
    and is not recorded beyond the call that opens them. *)
Inductive st_call : Type :=
| title (body : string)
| markdown (body : string)
| columns (spec : list nat)
| text_input (label placeholder : string)
| write (body : string)
| button (label : string) (use_container_width : bool)
| warning (body : string)
| spinner (text : string)
| error (body : string)
| subheader (body : string)
| video (data : string)
| metric (label : string) (value : nat)
| success (body : string)
| text_area (label value : string) (height : nat) (key : string)
| expander (label : string) (expanded : bool)
| download_button (label data file_name mime : string)
| info (body : string).

Inductive event : Type :=
| EGet (url : string)
| EGetTranscript (video_id : string)
| EPipeline (task model tokenizer : string)
| ESummarize (text : string) (max_length min_length : Z) (do_sample : bool)
| ESt (c : st_call).

(** A computation reads the world and records its calls. *)
Definition M (A : Type) : Type := World -> A * list event.

Definition ret {A : Type} (a : A) : M A := fun _ => (a, []).

Definition bind {A B : Type} (m : M A) (f : A -> M B) : M B :=
  fun w =>
    let (a, t1) := m w in
    let (b, t2) := f a w in
    (b, (t1 ++ t2)%list).

(** A call to the page: the widget, and the value it gives back. *)
Definition call {A : Type} (e : event) (answer : World -> A) : M A :=
  fun w => (answer w, [e]).

Definition st (c : st_call) : M unit := call (ESt c) (fun _ => tt).

(** The calls to the services.  Each one records the arguments it is made
    with and returns what the service answers to these arguments. *)

(** [requests.get(url).content] *)
Definition requests_get_content (url : string) : M (Exception + string) :=
  fun w => (requests_get w url, [EGet url]).

(** [YouTubeTranscriptApi.get_transcript(video_id)] *)
Definition fetch_transcript (video_id : string)
  : M (Exception + list (dict pyval)) :=
  fun w => (YouTubeTranscriptApi_get_transcript w video_id,
            [EGetTranscript video_id]).

(** [pipeline(task, model=model, tokenizer=tokenizer)] *)
Definition make_pipeline (task model tokenizer : string)
  : M (Exception + Summarizer) :=
  fun w => (pipeline w task model tokenizer, [EPipeline task model tokenizer]).

(** [summarizer(text, max_length=..., min_length=..., do_sample=...)] *)
Definition invoke (summarizer : Summarizer) (text : string)
           (max_length min_length : Z) (do_sample : bool)
  : M (Exception + list (dict string)) :=
  fun _ => (summarizer text max_length min_length do_sample,
            [ESummarize text max_length min_length do_sample]).

Notation "x <- m ;; k" := (bind m (fun x => k))
  (at level 61, m at next level, right associativity).
Notation "m ;;; k" := (bind m (fun _ => k))
  (at level 61, right associativity).

Definition result {A : Type} (m : M A) (w : World) : A := fst (m w).
Definition trace {A : Type} (m : M A) (w : World) : list event := snd (m w).

(** ** The stages *)

(** [get_video_title]: every failure, of any kind, gives the sentinel. *)
Definition get_video_title (video_id : string) : M string :=
  let url := "https://www.youtube.com/watch?v=" ++ video_id in
  response <- requests_get_content url ;;
  match response with
  | inl _ => ret "Unknown Title"
  | inr content =>
      fun w =>
        match soup_find_title w content with
        | inl _ => ret "Unknown Title" w
        | inr (Some text) => ret (replace " - YouTube" "" text) w
        | inr None => ret "Unknown Title" w
        end
  end.

(** [get_transcript]: the body of the [try], then the handler
    [except Exception: return None, 0]. *)
Definition get_transcript (video_id : string) : M (option string * nat) :=
  fetched <- fetch_transcript video_id ;;
  match fetched with
  | inl _ => ret (None, 0)
  | inr transcript =>
      match items_at transcript "text" with
      | inl _ => ret (None, 0)
      | inr texts =>
          match str_join " " texts with
          | inl _ => ret (None, 0)
          | inr full_text => ret (Some full_text, List.length transcript)
          end
      end
  end.

(** The defaults of the keyword parameters of [generate_summary]. *)
Definition max_length_default : Z := 150.
Definition min_length_default : Z := 30.

Definition or_default (d : Z) (arg : option Z) : Z :=
  match arg with
  | Some z => z
  | None => d
  end.

(** The handler of [generate_summary]; [text] is the variable as it is bound
    when the exception is raised. *)
Definition summary_failed (e : Exception) (text : string) : string :=
  "Summary generation failed: " ++ str e
  ++ ". Here are the first 500 characters: " ++ slice_to 500 text ++ "...".

(** The text handed on after [if len(text) > 1000: text = text[:1000] + "..."]. *)
Definition pre_truncate (text : string) : string :=
  if (1000 <? len text)%nat
  then slice_to 1000 text ++ "..."
  else text.

(** [generate_summary(text, max_length=150, min_length=30)]; an argument
    left out at the call is [None]. *)
Definition generate_summary (text : string) (max_length min_length : option Z)
  : M string :=
  let max_length := or_default max_length_default max_length in
  let min_length := or_default min_length_default min_length in
  made <- make_pipeline "summarization" "facebook/bart-large-cnn"
                        "facebook/bart-large-cnn" ;;
  match made with
  | inl e => ret (summary_failed e text)
  | inr summarizer =>
      let text := pre_truncate text in
      answer <- invoke summarizer text max_length min_length false ;;
      match answer with
      | inl e => ret (summary_failed e text)
      | inr summary =>
          match index0 summary with
          | inl e => ret (summary_failed e text)
          | inr first =>
              match getitem first "summary_text" with
              | inl e => ret (summary_failed e text)
              | inr summary_text => ret summary_text
              end
          end
      end
  end.

(** ** The page *)

Definition how_to_use : string :=
"
        ### 📋 How to use:
        1. **Copy** a YouTube video URL
        2. **Paste** it in the input field above
        3. **Click** the 'Summarize Video' button
        4. **Wait** for the AI to process and summarize the content
        
        ### ⚠️ Requirements:
        - Video must have captions/subtitles available
        - Supported URL formats:
          - `https://www.youtube.com/watch?v=VIDEO_ID`
          - `https://youtu.be/VIDEO_ID`
          - YouTube Shorts URLs
        ".

(** The part of [main] after a transcript was retrieved; [st.columns(2)],
    two columns of the same width, is recorded as [columns [1; 1]]. *)
Definition show_summary (video_id transcript : string) (sentence_count : nat)
  : M unit :=
  st (metric "Sentences in Transcript" sentence_count) ;;;
  st (metric "Characters in Transcript" (len transcript)) ;;;
  st (markdown "---") ;;;
  st (subheader "📝 Summary") ;;;
  st (spinner "🤖 Generating summary...") ;;;
  summary <- generate_summary transcript None None ;;
  st (success "✅ Summary generated successfully!") ;;;
  st (text_area "Summary" summary 150 "summary") ;;;
  st (markdown "---") ;;;
  st (subheader "📄 Full Transcript") ;;;
  st (expander "View Full Transcript" false) ;;;
  st (text_area "Transcript" transcript 300 "transcript") ;;;
  st (markdown "---") ;;;
  st (subheader "💾 Download") ;;;
  st (columns [1; 1]) ;;;
  st (download_button "📥 Download Summary" summary
        ("summary_" ++ video_id ++ ".txt") "text/plain") ;;;
  st (download_button "📥 Download Full Transcript" transcript
        ("transcript_" ++ video_id ++ ".txt") "text/plain").

(** The part of [main] under [with st.spinner("Processing video...")]. *)
Definition process_video (youtube_url : string) : M unit :=
  match extract_video_id youtube_url with
  | None =>
      st (error "❌ Invalid YouTube URL. Please check the link and try again.")
  | Some video_id =>
      if negb (truthy video_id) then
        st (error "❌ Invalid YouTube URL. Please check the link and try again.")
      else
        video_title <- get_video_title video_id ;;
        st (subheader "📹 Video Information") ;;;
        st (columns [2; 1]) ;;;
        st (write ("**Title:** " ++ video_title)) ;;;
        st (write ("**Video ID:** " ++ video_id)) ;;;
        st (video youtube_url) ;;;
        got <- get_transcript video_id ;;
        let (transcript, sentence_count) := got in
        match transcript with
        | None =>
            st (error "❌ Could not retrieve transcript. This video might not have captions available.")
        | Some transcript =>
            if negb (truthy transcript) then
              st (error "❌ Could not retrieve transcript. This video might not have captions available.")
            else show_summary video_id transcript sentence_count
        end
  end.

Definition main : M unit :=
  st (title "🎬 YouTube Video Summarizer") ;;;
  st (markdown "---") ;;;
  st (columns [3; 1]) ;;;
  youtube_url <-
    call (ESt (text_input "Enter YouTube URL:"
                 "https://www.youtube.com/watch?v=... or https://youtu.be/..."))
         st_text_input ;;
  st (write "") ;;;
  st (write "") ;;;
  summarize_btn <- call (ESt (button "🚀 Summarize Video" true)) st_button ;;
  st (markdown "---") ;;;
  if summarize_btn then
    if negb (truthy youtube_url) then
      st (warning "⚠️ Please enter a YouTube URL")
    else
      st (spinner "🔄 Processing video...") ;;;
      process_video youtube_url
  else
    st (info "👆 Enter a YouTube URL above and click 'Summarize Video' to get started!") ;;;
    st (markdown how_to_use).

(** ** Vocabulary of the statements *)

(** [class_run p n s]: the rest of [s] after [n] characters that all satisfy
    [p]. *)
Fixpoint class_run (p : ascii -> bool) (n : nat) (s : string)
  : option string :=
  match n with
  | O => Some s
  | S n' =>
      match s with
      | String c s' => if p c then class_run p n' s' else None
      | EmptyString => None
      end
  end.

Fixpoint all_chars (p : ascii -> bool) (s : string) : bool :=
  match s with
  | EmptyString => true
  | String c s' => p c && all_chars p s'
  end.

(** A token: exactly 11 characters of [[0-9A-Za-z_-]]. *)
Definition is_token (tok : string) : bool :=
  (String.length tok =? 11)%nat && all_chars token_char tok.

(** The token [s] starts with, if it starts with 11 token characters. *)
Definition token_at (s : string) : option string :=
  match class_run token_char 11 s with
  | Some _ => Some (substring 0 11 s)
  | None => None
  end.

Definition after_marker (marker s : string) : option string :=
  match lit_match marker s with
  | Some s1 => token_at s1
  | None => None
  end.

(** The token that follows, when [s] starts with [v=] or with [/] and 11
    token characters come next. *)
Definition token_after_marker (s : string) : option string :=
  match after_marker "v=" s with
  | Some tok => Some tok
  | None => after_marker "/" s
  end.

(** None of the first [n] positions of [s] starts a marker [v=] or [/]
    followed by 11 token characters. *)
Fixpoint no_hit (n : nat) (s : string) : bool :=
  match n with
  | O => true
  | S n' =>
      match token_after_marker s with
      | Some _ => false
      | None =>
          match s with
          | String _ s' => no_hit n' s'
          | EmptyString => true
          end
      end
  end.

(** The markers of the three URL shapes. *)
Definition markers : list string := ["v="; "/"; "embed/"; "shorts/"].

(** [url] carries the token [tok] right after one of the markers. *)
Definition recognizable (url tok : string) : Prop :=
  exists pre marker rest,
    In marker markers /\ is_token tok = true
    /\ url = pre ++ marker ++ tok ++ rest.

(** The match object of a search that captured [tok]. *)
Definition found (tok : option string) : option Match :=
  option_map (fun t => {| group1 := Some t |}) tok.

(** [t] is [s] from some position on. *)
Inductive suffix_of (t : string) : string -> Prop :=
| suffix_here : suffix_of t t
| suffix_later (c : ascii) (s : string) :
    suffix_of t s -> suffix_of t (String c s).

(** The calls that leave the program for a service: everything but the
    calls to the page. *)
Definition is_external (e : event) : bool :=
  match e with
  | ESt _ => false
  | _ => true
  end.

Definition external_calls (t : list event) : list event :=
  filter is_external t.

(** What the page shows: the calls to streamlit, in order. *)
Fixpoint page (t : list event) : list st_call :=
  match t with
  | [] => []
  | ESt c :: t' => c :: page t'
  | _ :: t' => page t'
  end.

(** The invocations of the summarization capability. *)
Fixpoint summarize_calls (t : list event)
  : list (string * Z * Z * bool) :=
  match t with
  | [] => []
  | ESummarize text mx mn ds :: t' => (text, mx, mn, ds) :: summarize_calls t'
  | _ :: t' => summarize_calls t'
  end.

(** The transcript fetches. *)
Fixpoint transcript_calls (t : list event) : list string :=
  match t with
  | [] => []
  | EGetTranscript video_id :: t' => video_id :: transcript_calls t'
  | _ :: t' => transcript_calls t'
  end.

(** The summarizer the program asks [transformers] for. *)
Definition make_summarizer (w : World) : Exception + Summarizer :=
  pipeline w "summarization" "facebook/bart-large-cnn" "facebook/bart-large-cnn".

(** [summary[0]['summary_text']] *)
Definition summary_text_of (summary : list (dict string))
  : Exception + string :=
  match index0 summary with
  | inl e => inl e
  | inr first => getitem first "summary_text"
  end.

(** The summarization capability fails with [e] on [text]: while the
    summarizer is made, when it is called, or by an answer that has no
    [summary[0]['summary_text']]. *)
Inductive summarization_fails (w : World) (text : string)
          (max_length min_length : option Z) (e : Exception) : Prop :=
| fails_at_init :
    make_summarizer w = inl e ->
    summarization_fails w text max_length min_length e
| fails_at_call (summarizer : Summarizer) :
    make_summarizer w = inr summarizer ->
    summarizer (pre_truncate text) (or_default max_length_default max_length)
               (or_default min_length_default min_length) false = inl e ->
    summarization_fails w text max_length min_length e
| fails_on_answer (summarizer : Summarizer) (summary : list (dict string)) :
    make_summarizer w = inr summarizer ->
    summarizer (pre_truncate text) (or_default max_length_default max_length)
               (or_default min_length_default min_length) false = inr summary ->
    summary_text_of summary = inl e ->
    summarization_fails w text max_length min_length e.

(** The summarization capability answers [text] with the summary [s]. *)
Definition summarization_returns (w : World) (text : string)
           (max_length min_length : option Z) (s : string) : Prop :=
  exists summarizer summary,
    make_summarizer w = inr summarizer
    /\ summarizer (pre_truncate text) (or_default max_length_default max_length)
                  (or_default min_length_default min_length) false = inr summary
    /\ summary_text_of summary = inr s.

(** The transcript-retrieval capability fails on [video_id]: by raising, or
    by an answer with a segment that has no [text] or whose [text] is not a
    string. *)
Inductive retrieval_fails (w : World) (video_id : string) : Prop :=
| raises (e : Exception) :
    YouTubeTranscriptApi_get_transcript w video_id = inl e ->
    retrieval_fails w video_id
| segment_without_text (transcript : list (dict pyval)) (e : Exception) :
    YouTubeTranscriptApi_get_transcript w video_id = inr transcript ->
    items_at transcript "text" = inl e ->
    retrieval_fails w video_id
| text_not_str (transcript : list (dict pyval)) (texts : list pyval)
               (e : Exception) :
    YouTubeTranscriptApi_get_transcript w video_id = inr transcript ->
    items_at transcript "text" = inr texts ->
    str_join " " texts = inl e ->
    retrieval_fails w video_id.

(** The calls that belong to summarization. *)
Definition is_summarization (e : event) : bool :=
  match e with
  | EPipeline _ _ _ | ESummarize _ _ _ _ => true
  | _ => false
  end.

(** The notices of a page: its warnings, errors and success banners. *)
Definition is_notice (c : st_call) : bool :=
  match c with
  | warning _ | error _ | success _ => true
  | _ => false
  end.

Definition notices (t : list event) : list st_call :=
  filter is_notice (page t).

(** The value shown in the summary text area, if the page has one. *)
Fixpoint shown_summary (p : list st_call) : option string :=
  match p with
  | [] => None
  | text_area "Summary" value _ _ :: _ => Some value
  | _ :: p' => shown_summary p'
  end.

Definition invalid_url_message : string :=
  "❌ Invalid YouTube URL. Please check the link and try again.".

Definition no_transcript_message : string :=
  "❌ Could not retrieve transcript. This video might not have captions available.".

Definition summary_success_message : string :=
  "✅ Summary generated successfully!".

(** A run of the page that gets as far as the Resolver: the button was
    pressed on a non-empty URL. *)
Definition submitted (w : World) : Prop :=
  st_button w = true /\ truthy (st_text_input w) = true.

(** Worlds to run the program in. *)
Definition with_input (url : string) (w : World) : World :=
  {| st_text_input := url;
     st_button := true;
     requests_get := requests_get w;
     soup_find_title := soup_find_title w;
     YouTubeTranscriptApi_get_transcript := YouTubeTranscriptApi_get_transcript w;
     pipeline := pipeline w |}.

Definition with_transcript (answer : Exception + list (dict pyval)) (w : World)
  : World :=
  {| st_text_input := st_text_input w;
     st_button := st_button w;
     requests_get := requests_get w;
     soup_find_title := soup_find_title w;
     YouTubeTranscriptApi_get_transcript := fun _ => answer;
     pipeline := pipeline w |}.

Definition with_summarizer (made : Exception + Summarizer) (w : World) : World :=
  {| st_text_input := st_text_input w;
     st_button := st_button w;
     requests_get := requests_get w;
     soup_find_title := soup_find_title w;
     YouTubeTranscriptApi_get_transcript := YouTubeTranscriptApi_get_transcript w;
     pipeline := fun _ _ _ => made |}.

(** Nothing answers: every service raises. *)
Definition offline : World :=
  {| st_text_input := "";
     st_button := false;
     requests_get := fun _ => inl {| str := "connection refused" |};
     soup_find_title := fun _ => inr None;
     YouTubeTranscriptApi_get_transcript :=
       fun _ => inl {| str := "no captions" |};
     pipeline := fun _ _ _ => inl {| str := "model unavailable" |} |}.

(** A caption segment as the retrieval capability returns it. *)
Definition segment (text : string) : dict pyval :=
  [("text", PStr text); ("start", POther); ("duration", POther)].

(** A text of [n] characters. *)
Fixpoint text_of_length (n : nat) : string :=
  match n with
  | O => ""
  | S n' => String "a" (text_of_length n')
  end.

(** The events of the page before the button is looked at. *)
Definition page_header : list event :=
  [ESt (title "🎬 YouTube Video Summarizer");
   ESt (markdown "---");
   ESt (columns [3; 1]);
   ESt (text_input "Enter YouTube URL:"
          "https://www.youtube.com/watch?v=... or https://youtu.be/...");
   ESt (write "");
   ESt (write "");
   ESt (button "🚀 Summarize Video" true);
   ESt (markdown "---")].

(** The events from the title lookup to the transcript fetch. *)
Definition video_information (youtube_url video_id video_title : string)
  : list event :=
  [EGet ("https://www.youtube.com/watch?v=" ++ video_id);
   ESt (subheader "📹 Video Information");
   ESt (columns [2; 1]);
   ESt (write ("**Title:** " ++ video_title));
   ESt (write ("**Video ID:** " ++ video_id));
   ESt (video youtube_url);
   EGetTranscript video_id].

(** The events of the page once the summary is there. *)
Definition summary_shown (video_id transcript summary : string) : list event :=
  [ESt (success "✅ Summary generated successfully!");
   ESt (text_area "Summary" summary 150 "summary");
   ESt (markdown "---");
   ESt (subheader "📄 Full Transcript");
   ESt (expander "View Full Transcript" false);
   ESt (text_area "Transcript" transcript 300 "transcript");
   ESt (markdown "---");
   ESt (subheader "💾 Download");
   ESt (columns [1; 1]);
   ESt (download_button "📥 Download Summary" summary
          ("summary_" ++ video_id ++ ".txt") "text/plain");
   ESt (download_button "📥 Download Full Transcript" transcript
          ("transcript_" ++ video_id ++ ".txt") "text/plain")].

Definition transcript_metrics (transcript : string) (sentence_count : nat)
  : list event :=
  [ESt (metric "Sentences in Transcript" sentence_count);
   ESt (metric "Characters in Transcript" (len transcript));
   ESt (markdown "---");
   ESt (subheader "📝 Summary");
   ESt (spinner "🤖 Generating summary...")].

(** The address [get_video_title] asks for. *)
Definition watch_url (video_id : string) : string :=
  "https://www.youtube.com/watch?v=" ++ video_id.

(** The title lookup fails on [video_id]: the request raises, the parser
    raises, or the document has no [title] tag. *)
Inductive title_lookup_fails (w : World) (video_id : string) : Prop :=
| request_raises (e : Exception) :
    requests_get w (watch_url video_id) = inl e ->
    title_lookup_fails w video_id
| parser_raises (content : string) (e : Exception) :
    requests_get w (watch_url video_id) = inr content ->
    soup_find_title w content = inl e ->
    title_lookup_fails w video_id
| no_title_tag (content : string) :
    requests_get w (watch_url video_id) = inr content ->
    soup_find_title w content = inr None ->
    title_lookup_fails w video_id.

(** The title lookup finds a [title] tag with the text [text]. *)
Definition title_found (w : World) (video_id text : string) : Prop :=
  exists content,
    requests_get w (watch_url video_id) = inr content
    /\ soup_find_title w content = inr (Some text).

(** [old] occurs in [s] at one of its first [n] positions. *)
Fixpoint occurs_within (n : nat) (old s : string) : bool :=
  match n with
  | O => false
  | S n' =>
      String.prefix old s
      || match s with
         | String _ s' => occurs_within n' old s'
         | EmptyString => false
         end
  end.

(** [old] occurs in [s]. *)
Definition occurs (old s : string) : bool :=
  occurs_within (S (String.length s)) old s.

(** A character that is neither [/] nor [=]. *)
Definition no_marker_char (c : ascii) : bool :=
  negb (Ascii.eqb c "/") && negb (Ascii.eqb c "=").

(** The characters of a list of texts, together. *)
Fixpoint total_length (texts : list string) : nat :=
  match texts with
  | [] => 0
  | text :: texts' => len text + total_length texts'
  end.

(** The files a page offers for download: name and content. *)
Fixpoint downloads (p : list st_call) : list (string * string) :=
  match p with
  | [] => []
  | download_button _ data file_name _ :: p' => (file_name, data) :: downloads p'
  | _ :: p' => downloads p'
  end.

(** The creation of the summarizer, as an event. *)
Definition summarizer_made : event :=
  EPipeline "summarization" "facebook/bart-large-cnn" "facebook/bart-large-cnn".

(** A world in which the watch page is served and the parser answers
    [answer] to [find('title')]. *)
Definition with_title (answer : Exception + option string) (w : World) : World :=
  {| st_text_input := st_text_input w;
     st_button := st_button w;
     requests_get := fun _ => inr "<html>";
     soup_find_title := fun _ => answer;
     YouTubeTranscriptApi_get_transcript := YouTubeTranscriptApi_get_transcript w;
     pipeline := pipeline w |}.

(** The warning for an empty input, the invitation shown before the button
    is pressed, and the text of the first spinner. *)
Definition enter_url_message : string :=
  "⚠️ Please enter a YouTube URL".

Definition get_started_message : string :=
  "👆 Enter a YouTube URL above and click 'Summarize Video' to get started!".

Definition processing_message : string :=
  "🔄 Processing video...".

(** What [generate_summary] makes of the answer of the capability to its
    invocation on [text]: the first summary of the answer, or the fallback
    when the invocation raised or the answer has no
    [summary[0]['summary_text']]. *)
Definition answered (answer : Exception + list (dict string)) (text : string)
  : string :=
  match answer with
  | inl e => summary_failed e text
  | inr summary =>
      match summary_text_of summary with
      | inl e => summary_failed e text
      | inr summary_text => summary_text
      end
  end.

(** A summarizer that gives back, as its summary, the text it is invoked
    on. *)
Definition echo : Summarizer :=
  fun text _ _ _ => inr [[("summary_text", text)]].

(** A text of [n] characters of three bytes each. *)
Fixpoint notes (n : nat) : string :=
  match n with
  | O => ""
  | S n' => "♪" ++ notes n'
  end.

(** An element of the page that reports a problem or gives advice. *)
Definition is_alert (c : st_call) : bool :=
  match c with
  | warning _ | error _ | info _ => true
  | _ => false
  end.

(** The two elements of the page that hold the summary itself: its text
    area and its download. *)
Definition holds_summary (c : st_call) : bool :=
  match c with
  | text_area label _ _ _ => String.eqb label "Summary"
  | download_button label _ _ _ => String.eqb label "📥 Download Summary"
  | _ => false
  end.

(** The page, the summary itself left aside. *)
Definition besides_summary (p : list st_call) : list st_call :=
  filter (fun c => negb (holds_summary c)) p.

(** The page of a run that reached the Summarizer, by the summary it got. *)
Definition summary_page (youtube_url video_id video_title transcript : string)
           (sentence_count : nat) (summary : string) : list st_call :=
  (page page_header
   ++ spinner processing_message
   :: page (video_information youtube_url video_id video_title)
   ++ page (transcript_metrics transcript sentence_count)
   ++ page (summary_shown video_id transcript summary))%list.

(** * Properties *)

(** ** Strings *)

Lemma length_app (s t : string) :
  String.length (s ++ t) = String.length s + String.length t.
Proof. induction s as [|c s IH]; simpl; [reflexivity | now rewrite IH]. Qed.

Lemma substring_0_0 (s : string) : substring 0 0 s = "".
Proof. destruct s; reflexivity. Qed.

(** The slice [s[:n]] of a string at least [n] long and prolonged by [t]. *)
Lemma substring_app_long (n : nat) (s t : string) :
  n <= String.length s -> substring 0 n (s ++ t) = substring 0 n s.
Proof.
  revert s; induction n as [|n IH]; intros s Hn.
  - now rewrite !substring_0_0.
  - destruct s as [|c s]; simpl in *; [lia|].
    f_equal. apply IH. lia.
Qed.

Lemma substring_all (s : string) : substring 0 (String.length s) s = s.
Proof. induction s as [|c s IH]; simpl; [reflexivity | now rewrite IH]. Qed.

Lemma substring_app_exact (s t : string) :
  substring 0 (String.length s) (s ++ t) = s.
Proof.
  rewrite substring_app_long by lia. apply substring_all.
Qed.

Lemma substring_length_full (n : nat) (s : string) :
  n <= String.length s -> String.length (substring 0 n s) = n.
Proof.
  revert s; induction n as [|n IH]; intros [|c s]; simpl; intros H;
    try lia.
  rewrite IH; lia.
Qed.

(** [len] and [s[:n]] on code points. *)
Lemma len_app (s t : string) : len (s ++ t) = len s + len t.
Proof.
  induction s as [|c s IH]; simpl; [reflexivity|].
  destruct (is_continuation c); now rewrite IH.
Qed.

Lemma len_slice_to (n : nat) (s : string) :
  len (slice_to n s) = Nat.min n (len s).
Proof.
  revert n; induction s as [|c s IH]; intros n; simpl.
  - now rewrite Nat.min_0_r.
  - destruct (is_continuation c) eqn:Hc.
    + simpl. now rewrite Hc.
    + destruct n as [|n]; [reflexivity|]. simpl. rewrite Hc. now rewrite IH.
Qed.

(** Slicing twice: [s[:m][:n] = s[:n]] when [n <= m]. *)
Lemma slice_to_slice_to (n m : nat) (s : string) :
  n <= m -> slice_to n (slice_to m s) = slice_to n s.
Proof.
  revert n m; induction s as [|c s IH]; intros n m Hnm; simpl; [reflexivity|].
  destruct (is_continuation c) eqn:Hc.
  - simpl. rewrite Hc. now rewrite IH.
  - destruct m as [|m].
    + assert (n = 0) by lia. subst n. reflexivity.
    + simpl. rewrite Hc. destruct n as [|n]; [reflexivity|].
      rewrite IH by lia. reflexivity.
Qed.

(** The slice [s[:n]] of a string of at least [n] characters that is
    prolonged by [t]; [t] starts a character of its own. *)
Lemma slice_to_app (n : nat) (s t : string) :
  slice_to 0 t = "" -> n <= len s -> slice_to n (s ++ t) = slice_to n s.
Proof.
  intros Ht. revert n; induction s as [|c s IH]; intros n Hn; simpl in *.
  - assert (n = 0) by lia. now subst n.
  - destruct (is_continuation c).
    + now rewrite IH.
    + destruct n as [|n]; [reflexivity|]. rewrite IH by lia. reflexivity.
Qed.

(** ** The matcher on the three patterns *)

Section MatcherFacts.
Context {R : Type}.
Implicit Types (k : @cont R) (p : ascii -> bool).

(** [[…]{n}] consumes exactly a run of [n] characters of the class. *)
Lemma rmatch_repeat_class p n s g k :
  rmatch (Repeat n (CharSet p)) s g k =
  match class_run p n s with
  | Some s' => k s' g
  | None => None
  end.
Proof.
  simpl. revert s g.
  induction n as [|n IH]; intros s g; simpl; [reflexivity|].
  destruct s as [|c s]; [reflexivity|].
  destruct (p c); [apply IH | reflexivity].
Qed.

(** A star in front of a continuation that cannot fail takes the longest
    run and never gives anything back. *)
Lemma star_match_total p s g k (r : option string -> R) :
  (forall s' g', k s' g' = Some (r g')) ->
  star_match p s g k = Some (r g).
Proof.
  intros Hk. induction s as [|c s IH]; simpl; [apply Hk|].
  destruct (p c); [now rewrite IH | apply Hk].
Qed.
End MatcherFacts.

Lemma class_run_length p n s s' :
  class_run p n s = Some s' -> String.length s = n + String.length s'.
Proof.
  revert s; induction n as [|n IH]; intros s H; simpl in H.
  - now inversion H.
  - destruct s as [|c s]; [discriminate|].
    destruct (p c); [|discriminate].
    simpl. now rewrite (IH _ H).
Qed.

Lemma class_run_all p n s s' :
  class_run p n s = Some s' -> all_chars p (substring 0 n s) = true.
Proof.
  revert s; induction n as [|n IH]; intros s H; simpl in H.
  - now rewrite substring_0_0.
  - destruct s as [|c s]; [discriminate|].
    destruct (p c) eqn:Hc; [|discriminate].
    simpl. rewrite Hc. simpl. eauto.
Qed.

Lemma class_run_app p tok rest :
  all_chars p tok = true ->
  class_run p (String.length tok) (tok ++ rest) = Some rest.
Proof.
  induction tok as [|c tok IH]; simpl; [reflexivity|].
  intros H. apply andb_true_iff in H as [Hc Ht].
  rewrite Hc. now apply IH.
Qed.

Lemma class_run_split p n s s' :
  class_run p n s = Some s' -> s = substring 0 n s ++ s'.
Proof.
  revert s; induction n as [|n IH]; intros s H; simpl in H.
  - inversion H. now rewrite substring_0_0.
  - destruct s as [|c s]; [discriminate|].
    destruct (p c); [|discriminate].
    simpl. f_equal. now apply IH.
Qed.

(** A token found at the head of a string is a token. *)
Lemma token_at_is_token s tok : token_at s = Some tok -> is_token tok = true.
Proof.
  unfold token_at, is_token.
  destruct (class_run token_char 11 s) as [s'|] eqn:H; [|discriminate].
  intros E; inversion E; subst tok; clear E.
  apply andb_true_iff; split.
  - apply Nat.eqb_eq. apply substring_length_full.
    apply class_run_length in H. lia.
  - eapply class_run_all; eauto.
Qed.

Lemma token_at_split s tok : token_at s = Some tok -> exists rest, s = tok ++ rest.
Proof.
  unfold token_at.
  destruct (class_run token_char 11 s) as [s'|] eqn:H; [|discriminate].
  intros E; inversion E. exists s'. now apply class_run_split in H.
Qed.

Lemma token_at_app tok rest :
  is_token tok = true -> token_at (tok ++ rest) = Some tok.
Proof.
  unfold is_token, token_at. intros H.
  apply andb_true_iff in H as [Hl Ha]. apply Nat.eqb_eq in Hl.
  rewrite <- Hl at 1. rewrite class_run_app by assumption.
  rewrite <- Hl. now rewrite substring_app_exact.
Qed.

Lemma lit_match_app l s : lit_match l (l ++ s) = Some s.
Proof.
  induction l as [|a l IH]; simpl; [reflexivity|].
  now rewrite Ascii.eqb_refl.
Qed.

Lemma lit_match_split l s s' : lit_match l s = Some s' -> s = l ++ s'.
Proof.
  revert s; induction l as [|a l IH]; intros s H; simpl in H.
  - now inversion H.
  - destruct s as [|c s]; [discriminate|].
    destruct (Ascii.eqb a c) eqn:E; [|discriminate].
    apply Ascii.eqb_eq in E; subst c. simpl. f_equal. now apply IH.
Qed.

(** The group [([0-9A-Za-z_-]{11})] captures the token at the head. *)
Lemma rmatch_token_group {R : Type} s g (k : @cont R) :
  rmatch token_group s g k =
  match class_run token_char 11 s with
  | Some s' => k s' (Some (substring 0 11 s))
  | None => None
  end.
Proof.
  unfold token_group.
  change (rmatch (Group ?r) s g k)
    with (rmatch r s g
            (fun s' _ => k s' (Some (substring 0 (String.length s - String.length s') s)))).
  rewrite rmatch_repeat_class.
  destruct (class_run token_char 11 s) as [s'|] eqn:H; [|reflexivity].
  apply class_run_length in H.
  replace (String.length s - String.length s') with 11 by lia.
  reflexivity.
Qed.

(** What each pattern matches when anchored at the head of [s]. *)
Lemma re_match_watch s : re_match pattern_watch s = found (token_after_marker s).
Proof.
  unfold re_match, pattern_watch, token_after_marker, after_marker, token_at.
  cbn [rmatch].
  assert (T : forall s1,
    rmatch token_group s1 None
      (fun s' g' => rmatch (Star dot) s' g' (fun _ g => Some {| group1 := g |}))
    = found (match class_run token_char 11 s1 with
             | Some _ => Some (substring 0 11 s1)
             | None => None
             end)).
  { intros s1. rewrite rmatch_token_group.
    destruct (class_run token_char 11 s1) as [s'|]; [|reflexivity].
    cbn [rmatch].
    now rewrite (star_match_total dot s' _ _ (fun g => {| group1 := g |})). }
  destruct (lit_match "v=" s) as [s1|].
  - rewrite T. destruct (class_run token_char 11 s1); [reflexivity|].
    simpl found at 1. cbv iota.
    destruct (lit_match "/" s) as [s2|]; [apply T | reflexivity].
  - destruct (lit_match "/" s) as [s2|]; [apply T | reflexivity].
Qed.

Lemma re_match_marker marker s :
  re_match (Seq (Lit marker) token_group) s = found (after_marker marker s).
Proof.
  unfold re_match, after_marker, token_at. cbn [rmatch].
  destruct (lit_match marker s) as [s1|]; [|reflexivity].
  rewrite rmatch_token_group.
  destruct (class_run token_char 11 s1); reflexivity.
Qed.

(** ** The search *)

Lemma suffix_of_app pre t : suffix_of t (pre ++ t).
Proof. induction pre as [|c pre IH]; simpl; [constructor | now constructor]. Qed.

Lemma suffix_of_split t s : suffix_of t s -> exists pre, s = pre ++ t.
Proof.
  induction 1 as [|c s _ [pre ->]]; [now exists "" | now exists (String c pre)].
Qed.

Lemma suffix_of_trans t u s : suffix_of t u -> suffix_of u s -> suffix_of t s.
Proof. intros Htu Hus. induction Hus; [assumption | now constructor]. Qed.

Lemma re_search_none r s :
  re_search r s = None <-> forall t, suffix_of t s -> re_match r t = None.
Proof.
  induction s as [|c s IH]; simpl.
  - destruct (re_match r "") eqn:E; split; intros H; try discriminate.
    + specialize (H "" (suffix_here _)). congruence.
    + intros t Ht. now inversion Ht; subst.
    + reflexivity.
  - destruct (re_match r (String c s)) eqn:E; split; intros H;
      try discriminate.
    + specialize (H _ (suffix_here _)). congruence.
    + intros t Ht. inversion Ht; subst; [assumption|].
      now apply IH.
    + apply IH. intros t Ht. apply H. now constructor.
Qed.

Lemma re_search_some r s m :
  re_search r s = Some m -> exists t, suffix_of t s /\ re_match r t = Some m.
Proof.
  induction s as [|c s IH]; simpl.
  - destruct (re_match r "") eqn:E; [|discriminate].
    intros H; inversion H; subst. exists "". split; [constructor | assumption].
  - destruct (re_match r (String c s)) eqn:E.
    + intros H; inversion H; subst. eexists; split; [constructor | eassumption].
    + intros H. destruct (IH H) as (t & Ht & Hm).
      exists t. split; [now constructor | assumption].
Qed.

(** The search stops at the first position, from the left, that matches. *)
Lemma re_search_first r pre t m :
  (forall u, suffix_of u (pre ++ t) -> String.length t < String.length u ->
             re_match r u = None) ->
  re_match r t = Some m ->
  re_search r (pre ++ t) = Some m.
Proof.
  induction pre as [|c pre IH]; intros Hbefore Ht.
  - simpl. destruct t; simpl; now rewrite Ht.
  - simpl. rewrite (Hbefore (String c (pre ++ t))).
    + apply IH; [|assumption].
      intros u Hu Hlen. apply Hbefore; [now constructor | assumption].
    + constructor.
    + simpl. rewrite length_app. lia.
Qed.

Lemma found_some tok m : found tok = Some m -> exists t, tok = Some t /\ group1 m = Some t.
Proof.
  destruct tok as [t|]; simpl; [|discriminate].
  intros H; inversion H; subst. now exists t.
Qed.

(** A token after [v=] or [/]: shape of the string. *)
Lemma token_after_marker_split s tok :
  token_after_marker s = Some tok ->
  is_token tok = true /\
  exists marker rest, (marker = "v=" \/ marker = "/") /\ s = marker ++ tok ++ rest.
Proof.
  unfold token_after_marker, after_marker.
  destruct (lit_match "v=" s) as [s1|] eqn:E1.
  - destruct (token_at s1) as [t1|] eqn:T1.
    + intros H; inversion H; subst t1. split; [eapply token_at_is_token; eauto|].
      apply lit_match_split in E1. destruct (token_at_split _ _ T1) as [rest ->].
      exists "v=", rest. auto.
    + apply lit_match_split in E1. subst s. simpl. discriminate.
  - destruct (lit_match "/" s) as [s2|] eqn:E2; [|discriminate].
    intros T2. split; [eapply token_at_is_token; eauto|].
    apply lit_match_split in E2. destruct (token_at_split _ _ T2) as [rest ->].
    exists "/", rest. auto.
Qed.

(** Every marker ends in [v=] or [/], so a token after any of the four
    markers is a token after [v=] or [/] a few characters further. *)
Lemma marker_hit marker tok rest :
  In marker markers -> is_token tok = true ->
  exists t, suffix_of t (marker ++ tok ++ rest)
            /\ token_after_marker t = Some tok.
Proof.
  intros Hm Htok.
  assert (V : token_after_marker ("v=" ++ tok ++ rest) = Some tok).
  { unfold token_after_marker, after_marker. rewrite lit_match_app.
    now rewrite token_at_app. }
  assert (S : token_after_marker ("/" ++ tok ++ rest) = Some tok).
  { unfold token_after_marker, after_marker.
    change (lit_match "v=" ("/" ++ tok ++ rest)) with (@None string).
    rewrite lit_match_app. now rewrite token_at_app. }
  destruct Hm as [<-|[<-|[<-|[<-|[]]]]].
  - eexists; split; [constructor | exact V].
  - eexists; split; [constructor | exact S].
  - exists ("/" ++ tok ++ rest). split; [|exact S].
    apply (suffix_of_app "embed").
  - exists ("/" ++ tok ++ rest). split; [|exact S].
    apply (suffix_of_app "shorts").
Qed.

(** The second and the third pattern never decide: where one of them
    matches, the first pattern matches one to six characters further, so
    that the first search has already succeeded. *)
Lemma later_patterns_dead marker url :
  In marker markers ->
  re_search pattern_watch url = None ->
  re_search (Seq (Lit marker) token_group) url = None.
Proof.
  intros Hm Hw.
  destruct (re_search (Seq (Lit marker) token_group) url) as [m|] eqn:E;
    [|reflexivity].
  exfalso.
  apply re_search_some in E as (t & Ht & Hmatch).
  rewrite re_match_marker in Hmatch.
  apply found_some in Hmatch as (tok & Hafter & _).
  unfold after_marker in Hafter.
  destruct (lit_match marker t) as [s1|] eqn:El; [|discriminate].
  apply lit_match_split in El; subst t.
  pose proof (token_at_is_token _ _ Hafter) as Htok.
  destruct (token_at_split _ _ Hafter) as [rest ->].
  destruct (marker_hit marker tok rest Hm Htok) as (t' & Ht' & Hhit).
  pose proof (proj1 (re_search_none _ _) Hw t' (suffix_of_trans _ _ _ Ht' Ht))
    as Hnone.
  rewrite re_match_watch, Hhit in Hnone. discriminate.
Qed.

(** The Resolver is the search for the first pattern. *)
Lemma extract_video_id_watch url :
  extract_video_id url =
  match re_search pattern_watch url with
  | Some m => group1 m
  | None => None
  end.
Proof.
  unfold extract_video_id, patterns. cbn [first_match].
  destruct (re_search pattern_watch url) eqn:Hw; [reflexivity|].
  unfold pattern_embed, pattern_shorts.
  rewrite !later_patterns_dead; auto; unfold markers; simpl; auto.
Qed.

Lemma extract_video_id_some url id :
  extract_video_id url = Some id ->
  is_token id = true /\
  exists pre marker rest,
    (marker = "v=" \/ marker = "/") /\ url = pre ++ marker ++ id ++ rest.
Proof.
  rewrite extract_video_id_watch.
  destruct (re_search pattern_watch url) as [m|] eqn:E; [|discriminate].
  intros Hg.
  apply re_search_some in E as (t & Ht & Hm).
  rewrite re_match_watch in Hm.
  apply found_some in Hm as (tok & Hhit & Hg').
  assert (tok = id) by congruence. subst tok.
  apply token_after_marker_split in Hhit as (Htok & marker & rest & Hmk & ->).
  split; [assumption|].
  apply suffix_of_split in Ht as [pre ->].
  exists pre, marker, rest. auto.
Qed.

Lemma extract_video_id_none url :
  extract_video_id url = None -> forall tok, ~ recognizable url tok.
Proof.
  rewrite extract_video_id_watch.
  destruct (re_search pattern_watch url) as [m|] eqn:E.
  - apply re_search_some in E as (t & _ & Hm).
    rewrite re_match_watch in Hm.
    apply found_some in Hm as (tok & _ & Hg). congruence.
  - intros _ tok (pre & marker & rest & Hmk & Htok & ->).
    destruct (marker_hit marker tok rest Hmk Htok) as (t & Ht & Hhit).
    pose proof (proj1 (re_search_none _ _) E t
                  (suffix_of_trans _ _ _ Ht (suffix_of_app _ _))) as Hnone.
    rewrite re_match_watch, Hhit in Hnone. discriminate.
Qed.

(** ** The Resolver: claims *)

Lemma suffix_of_length u s : suffix_of u s -> String.length u <= String.length s.
Proof. induction 1; simpl; lia. Qed.

Lemma no_hit_suffix u s :
  suffix_of u s -> forall n,
  no_hit n s = true -> String.length s < n + String.length u ->
  token_after_marker u = None.
Proof.
  induction 1 as [|c s Hus IH]; intros n Hn Hlen.
  - destruct n as [|n]; [lia|]. simpl in Hn.
    destruct (token_after_marker u); [discriminate | reflexivity].
  - pose proof (suffix_of_length _ _ Hus) as Hle.
    destruct n as [|n]; [simpl in Hlen; lia|].
    cbn [no_hit] in Hn.
    destruct (token_after_marker (String c s)); [discriminate|].
    apply (IH n Hn). simpl in Hlen. lia.
Qed.

Lemma is_token_length tok : is_token tok = true -> String.length tok = 11.
Proof.
  unfold is_token. intros H. apply andb_true_iff in H as [H _].
  now apply Nat.eqb_eq.
Qed.

(** C1.  The claim fails on the code at an address of the embedded-player
    shape.  [https://youtube-nocookie.com/embed/dQw4w9WgXcQ] carries the
    token [dQw4w9WgXcQ] after [embed/], and the pattern for [embed/] of the
    source, searched on its own, finds it; but [extract_video_id] returns
    [youtube-noc], eleven characters of the host name, because its first
    pattern takes any [/] for a marker and is tried first. *)
Theorem C1_embed_address_host_fragment :
  extract_video_id "https://youtube-nocookie.com/embed/dQw4w9WgXcQ"
  = Some "youtube-noc"
  /\ option_map group1
       (re_search pattern_embed
          "https://youtube-nocookie.com/embed/dQw4w9WgXcQ")
     = Some (Some "dQw4w9WgXcQ").
Proof. split; vm_compute; reflexivity. Qed.

(** What does hold of every URL: the Resolver returns either [None], and
    then the URL carries no token after any of the markers, or a string of
    exactly 11 characters, all of [[0-9A-Za-z_-]], that stands in the URL
    right after a marker.  Nothing is said of what follows these 11
    characters. *)
Lemma resolver_none_or_token (url : string) :
  (extract_video_id url = None /\ forall tok, ~ recognizable url tok)
  \/ (exists id,
        extract_video_id url = Some id
        /\ String.length id = 11 /\ id <> ""
        /\ all_chars token_char id = true
        /\ recognizable url id).
Proof.
  destruct (extract_video_id url) as [id|] eqn:E.
  - right. exists id.
    destruct (extract_video_id_some _ _ E) as (Htok & pre & marker & rest & Hmk & ->).
    pose proof (is_token_length _ Htok) as Hlen.
    split; [reflexivity|]. split; [assumption|]. split.
    + intros ->. discriminate Hlen.
    + split.
      * unfold is_token in Htok. now apply andb_true_iff in Htok as [_ ?].
      * exists pre, marker, rest. split; [|split; [assumption | reflexivity]].
        unfold markers. destruct Hmk as [-> | ->]; simpl; auto.
  - left. split; [reflexivity|]. now apply extract_video_id_none.
Qed.


(** C4.  The claim fails on the code: an address that holds no video
    identifier can yield a part of something else.  The address of a
    channel gives the first 11 of the 24 characters of the channel
    identifier, and an address outside YouTube gives the first 11
    characters of a path segment: the first pattern does not look at what
    follows the 11 characters it takes. *)
Theorem C4_partial_identifier :
  extract_video_id "https://www.youtube.com/channel/UCabcdefghijklmnopqrstuv"
  = Some "UCabcdefghi"
  /\ extract_video_id "https://example.com/verylongpathsegment"
     = Some "verylongpat".
Proof. split; vm_compute; reflexivity. Qed.

(** ** Runs *)

Lemma run_bind {A B : Type} (m : M A) (f : A -> M B) (w : World) :
  bind m f w = (result (f (result m w)) w,
                (trace m w ++ trace (f (result m w)) w)%list).
Proof.
  unfold bind, result, trace. destruct (m w) as [a t1]. simpl.
  destruct (f a w) as [b t2]. reflexivity.
Qed.

Lemma trace_bind {A B : Type} (m : M A) (f : A -> M B) (w : World) :
  trace (bind m f) w = (trace m w ++ trace (f (result m w)) w)%list.
Proof. unfold trace at 1. now rewrite run_bind. Qed.

Lemma trace_st c w : trace (st c) w = [ESt c].
Proof. reflexivity. Qed.

Lemma page_app t1 t2 : page (t1 ++ t2)%list = (page t1 ++ page t2)%list.
Proof.
  induction t1 as [|e t1 IH]; simpl; [reflexivity|].
  destruct e; simpl; now rewrite ?IH.
Qed.

Lemma summarize_calls_app t1 t2 :
  summarize_calls (t1 ++ t2)%list
  = (summarize_calls t1 ++ summarize_calls t2)%list.
Proof.
  induction t1 as [|e t1 IH]; simpl; [reflexivity|].
  destruct e; simpl; now rewrite ?IH.
Qed.

(** ** The Summarizer *)

(** One run of [generate_summary], by the answers of the capability. *)
Lemma generate_summary_run text max_length min_length w :
  generate_summary text max_length min_length w =
  let mx := or_default max_length_default max_length in
  let mn := or_default min_length_default min_length in
  let init := EPipeline "summarization" "facebook/bart-large-cnn"
                        "facebook/bart-large-cnn" in
  match make_summarizer w with
  | inl e => (summary_failed e text, [init])
  | inr summarizer =>
      (match summarizer (pre_truncate text) mx mn false with
       | inl e => summary_failed e (pre_truncate text)
       | inr summary =>
           match summary_text_of summary with
           | inl e => summary_failed e (pre_truncate text)
           | inr s => s
           end
       end,
       [init; ESummarize (pre_truncate text) mx mn false])
  end.
Proof.
  unfold generate_summary, make_summarizer, summary_text_of, bind,
    make_pipeline, invoke, ret.
  cbv zeta.
  destruct (pipeline w _ _ _) as [e|summarizer]; [reflexivity|].
  destruct (summarizer _ _ _ _) as [e|summary]; [reflexivity|].
  destruct (index0 summary) as [e|first]; [reflexivity|].
  destruct (getitem first "summary_text"); reflexivity.
Qed.

(** The first 500 characters survive the pre-truncation. *)
Lemma first_500_pre_truncate text :
  slice_to 500 (pre_truncate text) = slice_to 500 text.
Proof.
  unfold pre_truncate.
  destruct (Nat.ltb_spec 1000 (len text)) as [Hlong|Hshort];
    [|reflexivity].
  rewrite slice_to_app.
  - apply slice_to_slice_to. lia.
  - reflexivity.
  - rewrite len_slice_to. lia.
Qed.

Lemma summary_failed_pre_truncate e text :
  summary_failed e (pre_truncate text) = summary_failed e text.
Proof. unfold summary_failed. now rewrite first_500_pre_truncate. Qed.

(** The run of [generate_summary] once the summarizer is made: one
    invocation, on the cut text, and what its answer gives. *)
Lemma generate_summary_made text max_length min_length w summarizer :
  make_summarizer w = inr summarizer ->
  generate_summary text max_length min_length w
  = (answered (summarizer (pre_truncate text)
                 (or_default max_length_default max_length)
                 (or_default min_length_default min_length) false)
       (pre_truncate text),
     [summarizer_made;
      ESummarize (pre_truncate text)
        (or_default max_length_default max_length)
        (or_default min_length_default min_length) false]).
Proof.
  intros Hmade. rewrite generate_summary_run. cbv zeta. now rewrite Hmade.
Qed.

(** The fallback of a failed run. *)
Lemma generate_summary_fallback w text max_length min_length e :
  summarization_fails w text max_length min_length e ->
  result (generate_summary text max_length min_length) w
  = summary_failed e text.
Proof.
  intros Hfail. unfold result. rewrite generate_summary_run. cbv zeta.
  destruct Hfail as [Hinit | summarizer Hinit Hcall
                     | summarizer summary Hinit Hcall Hanswer];
    rewrite Hinit; cbn [fst]; [reflexivity| |].
  - rewrite Hcall. unfold summary_failed. now rewrite first_500_pre_truncate.
  - rewrite Hcall, Hanswer. unfold summary_failed.
    now rewrite first_500_pre_truncate.
Qed.

(** C2.  Whenever the summarization capability fails with an exception [e]
    -- while the summarizer is made, when it is called, or by a malformed
    answer -- [generate_summary] returns (it has no way to raise) the
    fallback string made of the failure marker, [str(e)], and the first 500
    characters of the text it was given, followed by [...]; also when the
    text was longer than 1000 characters and had been truncated before the
    failure. *)
Theorem C2_fallback_on_failure w text max_length min_length e :
  summarization_fails w text max_length min_length e ->
  result (generate_summary text max_length min_length) w =
  "Summary generation failed: " ++ str e
  ++ ". Here are the first 500 characters: " ++ slice_to 500 text ++ "...".
Proof.
  intros Hfail. unfold result. rewrite generate_summary_run. cbv zeta.
  destruct Hfail as [Hinit | summarizer Hinit Hcall
                     | summarizer summary Hinit Hcall Hanswer];
    rewrite Hinit; cbn [fst]; [reflexivity| |].
  - rewrite Hcall. unfold summary_failed. now rewrite first_500_pre_truncate.
  - rewrite Hcall, Hanswer. unfold summary_failed.
    now rewrite first_500_pre_truncate.
Qed.

(** A transcript of 2000 characters and a summarizer that throws; a text of
    200 characters of three bytes each and a summarizer that cannot be
    made. *)
Lemma C2_fallback_on_failure_witness :
  result (generate_summary (text_of_length 2000) None None)
         (with_summarizer
            (inr (fun _ _ _ _ => inl {| str := "out of memory" |})) offline)
  = "Summary generation failed: out of memory"
    ++ ". Here are the first 500 characters: " ++ text_of_length 500 ++ "..."
  /\ result (generate_summary (notes 200) None None) offline
     = "Summary generation failed: model unavailable"
       ++ ". Here are the first 500 characters: " ++ notes 200 ++ "...".
Proof.
  split.
  - apply (C2_fallback_on_failure
             (with_summarizer
                (inr (fun _ _ _ _ => inl {| str := "out of memory" |})) offline)
             (text_of_length 2000) None None {| str := "out of memory" |}).
    apply (fails_at_call _ _ _ _ _
             (fun _ _ _ _ => inl {| str := "out of memory" |}));
      reflexivity.
  - apply (C2_fallback_on_failure offline (notes 200) None None
             {| str := "model unavailable" |}).
    apply fails_at_init. reflexivity.
Defined.

(** C3.  Once the summarizer is made, [generate_summary] invokes it exactly
    once, on the text [passed]: the text itself when it has at most 1000
    characters, and otherwise its first 1000 characters followed by [...].
    What [generate_summary] returns is what the answer of the summarizer to
    [passed] gives, so the text reaches the capability in this form and in
    no other. *)
Theorem C3_pre_truncation w text max_length min_length summarizer :
  make_summarizer w = inr summarizer ->
  exists passed,
    (len text <= 1000 -> passed = text)
    /\ (1000 < len text ->
        passed = slice_to 1000 text ++ "..."
        /\ len (slice_to 1000 text) = 1000)
    /\ summarize_calls (trace (generate_summary text max_length min_length) w)
       = [(passed,
           or_default max_length_default max_length,
           or_default min_length_default min_length, false)]
    /\ result (generate_summary text max_length min_length) w
       = answered (summarizer passed
                     (or_default max_length_default max_length)
                     (or_default min_length_default min_length) false)
           passed.
Proof.
  intros Hmade. exists (pre_truncate text).
  unfold trace, result. rewrite (generate_summary_made _ _ _ _ _ Hmade).
  repeat split; unfold pre_truncate.
  - intros Hshort.
    destruct (Nat.ltb_spec 1000 (len text)); [lia | reflexivity].
  - destruct (Nat.ltb_spec 1000 (len text)); [reflexivity | lia].
  - rewrite len_slice_to. lia.
Qed.

(** A summarizer that gives back what it is invoked on shows the text
    passed: a text of 1001 characters is cut, and a text of 400 characters
    of three bytes each goes through whole. *)
Lemma C3_pre_truncation_witness :
  result (generate_summary (text_of_length 1001) None None)
         (with_summarizer (inr echo) offline)
  = text_of_length 1000 ++ "..."
  /\ result (generate_summary (notes 400) None None)
            (with_summarizer (inr echo) offline)
     = notes 400.
Proof.
  split.
  - destruct (C3_pre_truncation (with_summarizer (inr echo) offline)
                (text_of_length 1001) None None echo)
      as (passed & _ & Hlong & _ & Hresult); [reflexivity|].
    rewrite Hresult.
    destruct Hlong as [-> _]; [apply Nat.ltb_lt; vm_compute; reflexivity|].
    vm_compute; reflexivity.
  - destruct (C3_pre_truncation (with_summarizer (inr echo) offline)
                (notes 400) None None echo)
      as (passed & Hshort & _ & _ & Hresult); [reflexivity|].
    rewrite Hresult.
    rewrite Hshort; [|apply Nat.leb_le; vm_compute; reflexivity].
    vm_compute; reflexivity.
Defined.

(** ** The Acquirer *)

Lemma get_transcript_run video_id w :
  get_transcript video_id w =
  (match YouTubeTranscriptApi_get_transcript w video_id with
   | inl _ => (None, 0)
   | inr transcript =>
       match items_at transcript "text" with
       | inl _ => (None, 0)
       | inr texts =>
           match str_join " " texts with
           | inl _ => (None, 0)
           | inr full_text => (Some full_text, List.length transcript)
           end
       end
   end,
   [EGetTranscript video_id]).
Proof.
  unfold get_transcript, bind, fetch_transcript, ret.
  destruct (YouTubeTranscriptApi_get_transcript w video_id) as [e|transcript];
    [reflexivity|].
  destruct (items_at transcript "text") as [e|texts]; [reflexivity|].
  destruct (str_join " " texts); reflexivity.
Qed.

Lemma items_at_texts (transcript : list (dict pyval)) (texts : list string) :
  Forall2 (fun item text => getitem item "text" = inr (PStr text))
          transcript texts ->
  items_at transcript "text" = inr (map PStr texts).
Proof.
  induction 1 as [|item text transcript texts Hitem _ IH]; simpl;
    [reflexivity|].
  now rewrite Hitem, IH.
Qed.

Lemma all_str_map texts : all_str (map PStr texts) = inr texts.
Proof.
  induction texts as [|t texts IH]; simpl; [reflexivity | now rewrite IH].
Qed.

(** C5.  When the retrieval capability returns [N >= 0] segments whose text
    fields are [texts], in this order, [get_transcript] returns these texts
    joined with single spaces, and [N]. *)
Theorem C5_join_and_count w video_id transcript texts :
  YouTubeTranscriptApi_get_transcript w video_id = inr transcript ->
  Forall2 (fun item text => getitem item "text" = inr (PStr text))
          transcript texts ->
  result (get_transcript video_id) w
  = (Some (join " " texts), List.length transcript)
  /\ List.length transcript = List.length texts.
Proof.
  intros Hfetch Htexts. split.
  - unfold result. rewrite get_transcript_run, Hfetch. cbn [fst].
    rewrite (items_at_texts _ _ Htexts). unfold str_join.
    now rewrite all_str_map.
  - eapply Forall2_length; eauto.
Qed.

(** Three segments, and none. *)
Lemma C5_join_and_count_witness :
  (result (get_transcript "dQw4w9WgXcQ")
          (with_transcript
             (inr [segment "never gonna"; segment "give you"; segment "up"])
             offline)
   = (Some "never gonna give you up", 3)
   /\ 3 = 3)
  /\ (result (get_transcript "dQw4w9WgXcQ") (with_transcript (inr []) offline)
      = (Some "", 0)
      /\ 0 = 0).
Proof.
  split.
  - apply (C5_join_and_count
             (with_transcript
                (inr [segment "never gonna"; segment "give you"; segment "up"])
                offline)
             "dQw4w9WgXcQ"
             [segment "never gonna"; segment "give you"; segment "up"]
             ["never gonna"; "give you"; "up"]);
      [reflexivity | repeat constructor].
  - apply (C5_join_and_count (with_transcript (inr []) offline)
             "dQw4w9WgXcQ" [] []); [reflexivity | constructor].
Defined.

(** C6.  Whatever way the retrieval capability fails -- it raises, or its
    answer has a segment without a [text], or with a [text] that is not a
    string -- [get_transcript] returns (it has no way to raise) the one
    signal [(None, 0)]. *)
Theorem C6_unavailable w video_id :
  retrieval_fails w video_id ->
  result (get_transcript video_id) w = (None, 0).
Proof.
  intros Hfail. unfold result. rewrite get_transcript_run. cbn [fst].
  destruct Hfail as [e Hfetch | transcript e Hfetch Hitems
                     | transcript texts e Hfetch Hitems Hjoin];
    rewrite Hfetch; [reflexivity| |].
  - now rewrite Hitems.
  - now rewrite Hitems, Hjoin.
Qed.

(** A network error, and an answer whose second segment has no text. *)
Lemma C6_unavailable_witness :
  result (get_transcript "dQw4w9WgXcQ")
         (with_transcript (inl {| str := "network is unreachable" |}) offline)
  = (None, 0)
  /\ result (get_transcript "dQw4w9WgXcQ")
            (with_transcript
               (inr [segment "never gonna"; [("start", POther)]]) offline)
     = (None, 0).
Proof.
  split.
  - apply C6_unavailable.
    apply (raises _ _ {| str := "network is unreachable" |}). reflexivity.
  - apply C6_unavailable.
    apply (segment_without_text _ _
             [segment "never gonna"; [("start", POther)]]
             {| str := "'text'" |});
      reflexivity.
Defined.

(** ** The page *)

Lemma get_video_title_trace video_id w :
  trace (get_video_title video_id) w
  = [EGet ("https://www.youtube.com/watch?v=" ++ video_id)].
Proof.
  unfold trace, get_video_title, bind, requests_get_content, ret.
  destruct (requests_get w _) as [e|content]; [reflexivity|].
  destruct (soup_find_title w content) as [e|[text|]]; reflexivity.
Qed.

Lemma get_transcript_trace video_id w :
  trace (get_transcript video_id) w = [EGetTranscript video_id].
Proof. unfold trace. now rewrite get_transcript_run. Qed.

Ltac step_trace :=
  repeat (rewrite trace_bind; cbv beta); rewrite ?trace_st.

Lemma show_summary_trace video_id transcript sentence_count w :
  trace (show_summary video_id transcript sentence_count) w
  = (transcript_metrics transcript sentence_count
     ++ trace (generate_summary transcript None None) w
     ++ summary_shown video_id transcript
          (result (generate_summary transcript None None) w))%list.
Proof.
  unfold show_summary. step_trace. reflexivity.
Qed.

Lemma token_truthy id : is_token id = true -> truthy id = true.
Proof.
  intros H. apply is_token_length in H. now destruct id.
Qed.

(** The events of [process_video], by the outcome of the first two stages. *)
Lemma process_video_trace youtube_url w :
  trace (process_video youtube_url) w
  = match extract_video_id youtube_url with
    | None => [ESt (error invalid_url_message)]
    | Some video_id =>
        (video_information youtube_url video_id
           (result (get_video_title video_id) w)
         ++ match result (get_transcript video_id) w with
            | (Some transcript, sentence_count) =>
                if truthy transcript
                then trace (show_summary video_id transcript sentence_count) w
                else [ESt (error no_transcript_message)]
            | (None, _) => [ESt (error no_transcript_message)]
            end)%list
    end.
Proof.
  unfold process_video.
  destruct (extract_video_id youtube_url) as [video_id|] eqn:E;
    [|reflexivity].
  destruct (extract_video_id_some _ _ E) as [Htok _].
  rewrite (token_truthy _ Htok). cbn [negb].
  step_trace. rewrite get_video_title_trace, get_transcript_trace.
  destruct (result (get_transcript video_id) w) as [[transcript|] n];
    [|reflexivity].
  destruct (truthy transcript); reflexivity.
Qed.

Lemma main_trace w :
  trace main w
  = (page_header
     ++ if st_button w then
          if truthy (st_text_input w) then
            ESt (spinner "🔄 Processing video...")
            :: trace (process_video (st_text_input w)) w
          else [ESt (warning "⚠️ Please enter a YouTube URL")]
        else
          [ESt (info "👆 Enter a YouTube URL above and click 'Summarize Video' to get started!");
           ESt (markdown how_to_use)])%list.
Proof.
  unfold main. step_trace.
  unfold call at 1 2 3 4. unfold trace at 1 2, result at 1 2. cbn [fst snd].
  destruct (st_button w); [|reflexivity].
  destruct (truthy (st_text_input w)); cbn [negb]; [|reflexivity].
  step_trace. reflexivity.
Qed.

Lemma generate_summary_page text max_length min_length w :
  page (trace (generate_summary text max_length min_length) w) = [].
Proof.
  unfold trace. rewrite generate_summary_run. cbv zeta.
  destruct (make_summarizer w); reflexivity.
Qed.

(** The events of a submitted run. *)
Lemma main_submitted w :
  submitted w ->
  trace main w
  = (page_header
     ++ ESt (spinner "🔄 Processing video...")
     :: trace (process_video (st_text_input w)) w)%list.
Proof. intros [Hb Hu]. now rewrite main_trace, Hb, Hu. Qed.

(** A run in which the Resolver finds nothing. *)
Lemma main_not_found w :
  extract_video_id (st_text_input w) = None ->
  exists tail,
    trace main w = (page_header ++ tail)%list
    /\ external_calls tail = [] /\ transcript_calls tail = [].
Proof.
  intros Hnone. rewrite main_trace.
  destruct (st_button w); [destruct (truthy (st_text_input w))|];
    eexists; (split; [reflexivity|]).
  - rewrite process_video_trace, Hnone. split; reflexivity.
  - split; reflexivity.
  - split; reflexivity.
Qed.

(** A submitted run in which the Acquirer gives nothing usable. *)
Lemma main_no_transcript w video_id :
  submitted w ->
  extract_video_id (st_text_input w) = Some video_id ->
  truthy_opt (fst (result (get_transcript video_id) w)) = false ->
  trace main w
  = (page_header
     ++ ESt (spinner "🔄 Processing video...")
     :: video_information (st_text_input w) video_id
          (result (get_video_title video_id) w)
     ++ [ESt (error no_transcript_message)])%list.
Proof.
  intros Hsub Hid Hfalsy.
  rewrite (main_submitted _ Hsub), process_video_trace, Hid.
  destruct (result (get_transcript video_id) w) as [[transcript|] n];
    [|reflexivity].
  simpl in Hfalsy. now rewrite Hfalsy.
Qed.

(** A submitted run that reaches the Summarizer. *)
Lemma main_summarized w video_id transcript sentence_count :
  submitted w ->
  extract_video_id (st_text_input w) = Some video_id ->
  result (get_transcript video_id) w = (Some transcript, sentence_count) ->
  truthy transcript = true ->
  trace main w
  = (page_header
     ++ ESt (spinner "🔄 Processing video...")
     :: video_information (st_text_input w) video_id
          (result (get_video_title video_id) w)
     ++ transcript_metrics transcript sentence_count
     ++ trace (generate_summary transcript None None) w
     ++ summary_shown video_id transcript
          (result (generate_summary transcript None None) w))%list.
Proof.
  intros Hsub Hid Hgot Htruthy.
  rewrite (main_submitted _ Hsub), process_video_trace, Hid, Hgot, Htruthy.
  now rewrite show_summary_trace.
Qed.

(** C7.  The pipeline short-circuits.  In a run in which the Resolver
    returns [None] the program calls no service at all: no transcript is
    fetched and nothing goes over the network.  In a run in which the
    Acquirer returns the unavailable signal, no summarizer is made and none
    is invoked. *)
Theorem C7_short_circuit w :
  (extract_video_id (st_text_input w) = None ->
   transcript_calls (trace main w) = []
   /\ external_calls (trace main w) = [])
  /\ (forall video_id,
        extract_video_id (st_text_input w) = Some video_id ->
        fst (result (get_transcript video_id) w) = None ->
        filter is_summarization (trace main w) = []
        /\ summarize_calls (trace main w) = []).
Proof.
  split.
  - intros Hnone.
    destruct (main_not_found _ Hnone) as (tail & -> & Hext & Htr).
    split.
    + clear Hext. revert Htr. unfold page_header. simpl. auto.
    + unfold external_calls in *. rewrite filter_app, Hext. reflexivity.
  - intros video_id Hid Hnone.
    destruct (st_button w) eqn:Hb;
      [destruct (truthy (st_text_input w)) eqn:Hu|].
    + rewrite (main_no_transcript w video_id (conj Hb Hu) Hid)
        by now rewrite Hnone.
      split; reflexivity.
    + rewrite main_trace, Hb, Hu. split; reflexivity.
    + rewrite main_trace, Hb. split; reflexivity.
Qed.

(** The two scenarios of the specification: an URL of another site, and a
    video without captions. *)
Lemma C7_short_circuit_witness :
  (transcript_calls (trace main (with_input "https://example.com/video" offline))
   = []
   /\ external_calls (trace main (with_input "https://example.com/video" offline))
      = [])
  /\ (filter is_summarization
        (trace main (with_input "https://youtu.be/dQw4w9WgXcQ" offline)) = []
      /\ summarize_calls
           (trace main (with_input "https://youtu.be/dQw4w9WgXcQ" offline))
         = []).
Proof.
  split.
  - apply (proj1 (C7_short_circuit
                    (with_input "https://example.com/video" offline))).
    vm_compute; reflexivity.
  - apply (proj2 (C7_short_circuit
                    (with_input "https://youtu.be/dQw4w9WgXcQ" offline))
             "dQw4w9WgXcQ").
    + vm_compute; reflexivity.
    + reflexivity.
Defined.

(** The title lookup does not depend on the transcript service. *)
Lemma get_video_title_with_transcript answer video_id w :
  result (get_video_title video_id) (with_transcript answer w)
  = result (get_video_title video_id) w.
Proof.
  unfold result, get_video_title, bind, requests_get_content, ret,
    with_transcript.
  cbn [requests_get soup_find_title].
  destruct (requests_get w _) as [e|content]; [reflexivity|].
  cbn [soup_find_title].
  destruct (soup_find_title w content) as [e|[text|]]; reflexivity.
Qed.

(** C10.  When the retrieval capability succeeds with zero segments,
    [get_transcript] returns the empty text and the count 0, and the page
    does exactly what it does when the capability raises: same events, the
    no-transcript error, no summarization. *)
Theorem C10_zero_segments w video_id e :
  submitted w ->
  extract_video_id (st_text_input w) = Some video_id ->
  YouTubeTranscriptApi_get_transcript w video_id = inr [] ->
  result (get_transcript video_id) w = (Some "", 0)
  /\ result (get_transcript video_id) (with_transcript (inl e) w) = (None, 0)
  /\ trace main w = trace main (with_transcript (inl e) w)
  /\ notices (trace main w) = [error no_transcript_message]
  /\ filter is_summarization (trace main w) = [].
Proof.
  intros Hsub Hid Hfetch.
  assert (Hempty : result (get_transcript video_id) w = (Some "", 0)).
  { unfold result. now rewrite get_transcript_run, Hfetch. }
  assert (Hfailed :
            result (get_transcript video_id) (with_transcript (inl e) w)
            = (None, 0)).
  { unfold result. now rewrite get_transcript_run. }
  assert (Hrun : trace main w
                 = (page_header
                    ++ ESt (spinner "🔄 Processing video...")
                    :: video_information (st_text_input w) video_id
                         (result (get_video_title video_id) w)
                    ++ [ESt (error no_transcript_message)])%list).
  { apply main_no_transcript; [assumption | assumption |].
    now rewrite Hempty. }
  repeat split; try assumption.
  - rewrite Hrun.
    rewrite (main_no_transcript (with_transcript (inl e) w) video_id).
    + now rewrite get_video_title_with_transcript.
    + exact Hsub.
    + exact Hid.
    + now rewrite Hfailed.
  - rewrite Hrun. reflexivity.
  - rewrite Hrun. reflexivity.
Qed.

(** A video whose transcript has no segment. *)
Lemma C10_zero_segments_witness :
  let w := with_input "https://youtu.be/dQw4w9WgXcQ"
             (with_transcript (inr []) offline) in
  let e := {| str := "no captions" |} in
  result (get_transcript "dQw4w9WgXcQ") w = (Some "", 0)
  /\ result (get_transcript "dQw4w9WgXcQ") (with_transcript (inl e) w)
     = (None, 0)
  /\ trace main w = trace main (with_transcript (inl e) w)
  /\ notices (trace main w) = [error no_transcript_message]
  /\ filter is_summarization (trace main w) = [].
Proof.
  intros w e.
  apply (C10_zero_segments w "dQw4w9WgXcQ" e).
  - split; reflexivity.
  - vm_compute; reflexivity.
  - reflexivity.
Defined.

(** The page of a submitted run that reaches the Summarizer. *)
Lemma main_summarized_page w video_id transcript sentence_count :
  submitted w ->
  extract_video_id (st_text_input w) = Some video_id ->
  result (get_transcript video_id) w = (Some transcript, sentence_count) ->
  truthy transcript = true ->
  page (trace main w)
  = summary_page (st_text_input w) video_id
      (result (get_video_title video_id) w) transcript sentence_count
      (result (generate_summary transcript None None) w).
Proof.
  intros Hsub Hid Hgot Htruthy.
  rewrite (main_summarized _ _ _ _ Hsub Hid Hgot Htruthy).
  unfold summary_page.
  rewrite page_app. cbn [page]. rewrite !page_app.
  now rewrite generate_summary_page.
Qed.

Lemma summary_page_notices youtube_url video_id video_title transcript
      sentence_count summary :
  filter is_notice
    (summary_page youtube_url video_id video_title transcript sentence_count
       summary)
  = [success summary_success_message]
  /\ filter is_alert
       (summary_page youtube_url video_id video_title transcript
          sentence_count summary)
     = []
  /\ shown_summary
       (summary_page youtube_url video_id video_title transcript
          sentence_count summary)
     = Some summary
  /\ downloads
       (summary_page youtube_url video_id video_title transcript
          sentence_count summary)
     = [("summary_" ++ video_id ++ ".txt", summary);
        ("transcript_" ++ video_id ++ ".txt", transcript)].
Proof. repeat split. Qed.

Lemma besides_summary_page youtube_url video_id video_title transcript
      sentence_count summary summary' :
  besides_summary
    (summary_page youtube_url video_id video_title transcript sentence_count
       summary)
  = besides_summary
      (summary_page youtube_url video_id video_title transcript sentence_count
         summary').
Proof. vm_compute. reflexivity. Qed.

(** C8 as stated fails.  Nothing on the page tells a fallback from a
    genuine summary, the summary itself left aside.  A run whose summarizer
    throws and a run whose summarizer returns a summary show, apart from
    the content of the summary text area and of the summary download, the
    same elements in the same order: no notice of a degraded summary, and
    the same success banner. *)
Lemma C8_counterexample :
  ~ (forall w made_failing made_working video_id transcript sentence_count e s,
        submitted w ->
        extract_video_id (st_text_input w) = Some video_id ->
        result (get_transcript video_id) w = (Some transcript, sentence_count) ->
        truthy transcript = true ->
        summarization_fails (with_summarizer made_failing w) transcript
                            None None e ->
        summarization_returns (with_summarizer made_working w) transcript
                              None None s ->
        besides_summary (page (trace main (with_summarizer made_failing w)))
        <> besides_summary (page (trace main (with_summarizer made_working w)))).
Proof.
  intros H.
  apply (H (with_input "https://youtu.be/dQw4w9WgXcQ"
              (with_transcript (inr [segment "Owls hunt at night."]) offline))
           (inr (fun _ _ _ _ => inl {| str := "boom" |}))
           (inr (fun _ _ _ _ => inr [[("summary_text", "Owls.")]]))
           "dQw4w9WgXcQ" "Owls hunt at night." 1 {| str := "boom" |} "Owls.").
  - split; reflexivity.
  - vm_compute; reflexivity.
  - reflexivity.
  - reflexivity.
  - apply (fails_at_call _ _ _ _ _ (fun _ _ _ _ => inl {| str := "boom" |}));
      reflexivity.
  - eexists _, _. repeat split; reflexivity.
  - vm_compute; reflexivity.
Qed.

(** C8 (as amended).  In a submitted run, a bad URL and a missing transcript
    each render one fixed error message, the two differ, and neither carries
    any detail of the failure.  A summarization failure renders no notice of
    its own: the page has no warning, error or information box, its one
    banner is the success banner, the same as in a run with a genuine
    summary, and the fallback string -- the failure marker, [str(e)], the
    first 500 characters of the transcript and [...] -- stands where the
    summary would: in the summary text area and in the summary download.
    Every other element of the page is what it is in a run with a genuine
    summary, so the failure reaches the user in the fallback string only. *)
Theorem C8_failure_messages w :
  submitted w ->
  (extract_video_id (st_text_input w) = None ->
   notices (trace main w) = [error invalid_url_message])
  /\ (forall video_id,
        extract_video_id (st_text_input w) = Some video_id ->
        truthy_opt (fst (result (get_transcript video_id) w)) = false ->
        notices (trace main w) = [error no_transcript_message])
  /\ invalid_url_message <> no_transcript_message
  /\ (forall video_id transcript sentence_count,
        extract_video_id (st_text_input w) = Some video_id ->
        result (get_transcript video_id) w = (Some transcript, sentence_count) ->
        truthy transcript = true ->
        notices (trace main w) = [success summary_success_message]
        /\ filter is_alert (page (trace main w)) = []
        /\ besides_summary (page (trace main w))
           = besides_summary
               (summary_page (st_text_input w) video_id
                  (result (get_video_title video_id) w)
                  transcript sentence_count "")
        /\ (forall e,
              summarization_fails w transcript None None e ->
              exists fallback,
                fallback = "Summary generation failed: " ++ str e
                           ++ ". Here are the first 500 characters: "
                           ++ slice_to 500 transcript ++ "..."
                /\ page (trace main w)
                   = summary_page (st_text_input w) video_id
                       (result (get_video_title video_id) w)
                       transcript sentence_count fallback
                /\ shown_summary (page (trace main w)) = Some fallback
                /\ downloads (page (trace main w))
                   = [("summary_" ++ video_id ++ ".txt", fallback);
                      ("transcript_" ++ video_id ++ ".txt", transcript)])
        /\ (forall s,
              summarization_returns w transcript None None s ->
              page (trace main w)
              = summary_page (st_text_input w) video_id
                  (result (get_video_title video_id) w)
                  transcript sentence_count s
              /\ shown_summary (page (trace main w)) = Some s)).
Proof.
  intros Hsub. split; [|split; [|split]].
  - intros Hnone.
    rewrite (main_submitted _ Hsub), process_video_trace, Hnone. reflexivity.
  - intros video_id Hid Hfalsy.
    rewrite (main_no_transcript _ _ Hsub Hid Hfalsy). reflexivity.
  - discriminate.
  - intros video_id transcript n Hid Hgot Htruthy.
    pose proof (main_summarized_page _ _ _ _ Hsub Hid Hgot Htruthy) as Hpage.
    unfold notices. rewrite Hpage.
    split; [apply summary_page_notices|].
    split; [apply summary_page_notices|].
    split; [apply besides_summary_page|].
    split.
    + intros e Hfail. eexists. split; [reflexivity|].
      rewrite (generate_summary_fallback _ _ _ _ _ Hfail).
      split; [reflexivity|]. split; apply summary_page_notices.
    + intros s (summarizer & summary & Hinit & Hcall & Hanswer).
      unfold result. rewrite (generate_summary_made _ _ _ _ _ Hinit).
      cbn [fst]. unfold answered.
      cbn [or_default] in Hcall. cbn [or_default].
      rewrite Hcall, Hanswer. split; [reflexivity|].
      apply summary_page_notices.
Qed.

(** A run whose summarizer throws: the success banner, and the fallback in
    the text area and in the download. *)
Lemma C8_failure_messages_witness :
  let w := with_input "https://youtu.be/dQw4w9WgXcQ"
             (with_transcript (inr [segment "hello"])
                (with_summarizer
                   (inr (fun _ _ _ _ => inl {| str := "boom" |})) offline)) in
  notices (trace main w) = [success summary_success_message]
  /\ shown_summary (page (trace main w))
     = Some "Summary generation failed: boom. Here are the first 500 characters: hello..."
  /\ downloads (page (trace main w))
     = [("summary_dQw4w9WgXcQ.txt",
         "Summary generation failed: boom. Here are the first 500 characters: hello...");
        ("transcript_dQw4w9WgXcQ.txt", "hello")].
Proof.
  intros w.
  assert (Hsub : submitted w) by (split; reflexivity).
  pose proof (proj2 (proj2 (proj2 (C8_failure_messages w Hsub)))
                "dQw4w9WgXcQ" "hello" 1) as H.
  destruct H as (Hnotices & _ & _ & Hfallback & _);
    [vm_compute; reflexivity | reflexivity | reflexivity |].
  destruct (Hfallback {| str := "boom" |})
    as (fallback & Heq & _ & Hshown & Hfiles).
  { apply (fails_at_call _ _ _ _ _ (fun _ _ _ _ => inl {| str := "boom" |}));
      reflexivity. }
  subst fallback.
  split; [exact Hnotices|]. split; [exact Hshown | exact Hfiles].
Defined.

(** ** The bounds *)

Lemma generate_summary_calls text max_length min_length w :
  summarize_calls (trace (generate_summary text max_length min_length) w)
  = match make_summarizer w with
    | inr _ => [(pre_truncate text,
                 or_default max_length_default max_length,
                 or_default min_length_default min_length, false)]
    | inl _ => []
    end.
Proof.
  unfold trace. rewrite generate_summary_run. cbv zeta.
  destruct (make_summarizer w); reflexivity.
Qed.

Lemma summarize_calls_page_only t :
  external_calls t = [] -> summarize_calls t = [].
Proof.
  unfold external_calls.
  induction t as [|e t IH]; [reflexivity|].
  destruct e; simpl; try discriminate. exact IH.
Qed.

Lemma summarize_calls_page_only_information youtube_url video_id w :
  summarize_calls
    (video_information youtube_url video_id
       (result (get_video_title video_id) w)) = [].
Proof. reflexivity. Qed.

(** The invocations of the summarizer in a run of the page are those of the
    one call [generate_summary(transcript)]. *)
Lemma main_summarize_calls w :
  summarize_calls (trace main w) = []
  \/ exists transcript,
       summarize_calls (trace main w)
       = summarize_calls (trace (generate_summary transcript None None) w).
Proof.
  rewrite main_trace, summarize_calls_app.
  rewrite (summarize_calls_page_only page_header) by reflexivity.
  cbn [app].
  destruct (st_button w); [|now left].
  destruct (truthy (st_text_input w)); [|now left].
  cbn [summarize_calls]. rewrite process_video_trace.
  destruct (extract_video_id (st_text_input w)) as [video_id|]; [|now left].
  rewrite summarize_calls_app.
  rewrite summarize_calls_page_only_information.
  cbn [app].
  destruct (result (get_transcript video_id) w) as [[transcript|] n];
    [|now left].
  destruct (truthy transcript); [|now left].
  right. exists transcript.
  rewrite show_summary_trace, !summarize_calls_app.
  rewrite (summarize_calls_page_only (transcript_metrics transcript n))
    by reflexivity.
  rewrite (summarize_calls_page_only
             (summary_shown video_id transcript
                (result (generate_summary transcript None None) w)))
    by reflexivity.
  cbn [app]. now rewrite List.app_nil_r.
Qed.

(** C9.  With the bounds left out, [generate_summary] uses
    [max_length = 150] and [min_length = 30]: once the summarizer is made it
    invokes it once, on the (possibly truncated) text with these two bounds
    and with [do_sample=False], and returns what the answer to this very
    invocation gives; given bounds are passed as they are.  When the
    summarizer cannot be made there is no invocation.  The page leaves the
    bounds out, so every invocation in a run of [main] has this form, and
    the summary the page shows is what the answer to it gives. *)
Theorem C9_default_bounds w text :
  (forall summarizer,
     make_summarizer w = inr summarizer ->
     generate_summary text None None w
     = (answered (summarizer (pre_truncate text) 150%Z 30%Z false)
          (pre_truncate text),
        [summarizer_made; ESummarize (pre_truncate text) 150%Z 30%Z false])
     /\ forall max_length min_length,
          generate_summary text (Some max_length) (Some min_length) w
          = (answered (summarizer (pre_truncate text) max_length min_length
                         false)
               (pre_truncate text),
             [summarizer_made;
              ESummarize (pre_truncate text) max_length min_length false]))
  /\ (forall e max_length min_length,
        make_summarizer w = inl e ->
        summarize_calls (trace (generate_summary text max_length min_length) w)
        = [])
  /\ (forall invocation,
        In invocation (summarize_calls (trace main w)) ->
        exists transcript,
          invocation = (pre_truncate transcript, 150%Z, 30%Z, false))
  /\ (forall video_id transcript sentence_count summarizer,
        submitted w ->
        extract_video_id (st_text_input w) = Some video_id ->
        result (get_transcript video_id) w = (Some transcript, sentence_count) ->
        truthy transcript = true ->
        make_summarizer w = inr summarizer ->
        shown_summary (page (trace main w))
        = Some (answered
                  (summarizer (pre_truncate transcript) 150%Z 30%Z false)
                  (pre_truncate transcript))).
Proof.
  split; [|split; [|split]].
  - intros summarizer Hmade. split.
    + exact (generate_summary_made text None None w summarizer Hmade).
    + intros max_length min_length.
      exact (generate_summary_made text (Some max_length) (Some min_length)
               w summarizer Hmade).
  - intros e max_length min_length Hmade.
    rewrite generate_summary_calls. now rewrite Hmade.
  - intros invocation Hin.
    destruct (main_summarize_calls w) as [Hnone | [transcript Hsome]].
    + rewrite Hnone in Hin. destruct Hin.
    + rewrite Hsome, generate_summary_calls in Hin.
      destruct (make_summarizer w); [destruct Hin|].
      destruct Hin as [<- | []]. now exists transcript.
  - intros video_id transcript n summarizer Hsub Hid Hgot Htruthy Hmade.
    rewrite (main_summarized_page _ _ _ _ Hsub Hid Hgot Htruthy).
    unfold result.
    rewrite (generate_summary_made transcript None None w summarizer Hmade).
    apply summary_page_notices.
Qed.

(** * Further properties of the code *)

(** ** The Resolver: addresses it takes and addresses it refuses *)

Lemma append_assoc (s t u : string) : (s ++ t) ++ u = s ++ t ++ u.
Proof. induction s as [|c s IH]; simpl; [reflexivity | now rewrite IH]. Qed.

Lemma append_empty_r (s : string) : s ++ "" = s.
Proof. induction s as [|c s IH]; simpl; [reflexivity | now rewrite IH]. Qed.

Lemma all_chars_app p s t :
  all_chars p (s ++ t) = all_chars p s && all_chars p t.
Proof.
  induction s as [|c s IH]; simpl; [reflexivity|].
  now rewrite IH, andb_assoc.
Qed.

Lemma token_after_marker_app marker tok rest :
  marker = "v=" \/ marker = "/" -> is_token tok = true ->
  token_after_marker (marker ++ tok ++ rest) = Some tok.
Proof.
  intros [-> | ->] Htok; unfold token_after_marker, after_marker.
  - rewrite lit_match_app. now rewrite token_at_app.
  - change (lit_match "v=" ("/" ++ tok ++ rest)) with (@None string).
    rewrite lit_match_app. now rewrite token_at_app.
Qed.

(** The token after the leftmost [v=] or [/] that has one is the answer. *)
Lemma resolve_leftmost pre marker tok rest :
  marker = "v=" \/ marker = "/" ->
  is_token tok = true ->
  no_hit (String.length pre) (pre ++ marker ++ tok ++ rest) = true ->
  extract_video_id (pre ++ marker ++ tok ++ rest) = Some tok.
Proof.
  intros Hmk Htok Hfirst.
  rewrite extract_video_id_watch.
  rewrite (re_search_first pattern_watch pre (marker ++ tok ++ rest)
             {| group1 := Some tok |}).
  - reflexivity.
  - intros u Hu Hlen. rewrite re_match_watch.
    rewrite (no_hit_suffix _ _ Hu _ Hfirst); [reflexivity|].
    rewrite length_app. lia.
  - rewrite re_match_watch, token_after_marker_app by assumption. reflexivity.
Qed.

(** X1.  The second and the third pattern of [extract_video_id] are dead: on
    every URL the loop over the three patterns returns what the search for
    the first pattern alone returns, because [embed/] and [shorts/] end in
    the [/] that the first pattern already accepts. *)
Theorem X1_first_pattern_decides (url : string) :
  extract_video_id url = first_match [pattern_watch] url.
Proof.
  rewrite extract_video_id_watch. cbn [first_match].
  destruct (re_search pattern_watch url); reflexivity.
Qed.

(** X2.  The four usual address forms resolve for every identifier, whatever
    follows it: the watch address that [get_video_title] itself builds from
    an identifier, the short link, the embedded player and the Shorts
    address all give the identifier back, with any query string or further
    characters after it ignored. *)
Theorem X2_usual_addresses (id rest : string) :
  is_token id = true ->
  extract_video_id (watch_url id ++ rest) = Some id
  /\ extract_video_id ("https://youtu.be/" ++ id ++ rest) = Some id
  /\ extract_video_id ("https://www.youtube.com/embed/" ++ id ++ rest) = Some id
  /\ extract_video_id ("https://www.youtube.com/shorts/" ++ id ++ rest)
     = Some id.
Proof.
  intros Htok. unfold watch_url. rewrite append_assoc.
  repeat split.
  - apply (resolve_leftmost "https://www.youtube.com/watch?" "v=" id rest);
      [now left | assumption | reflexivity].
  - apply (resolve_leftmost "https://youtu.be" "/" id rest);
      [now right | assumption | reflexivity].
  - apply (resolve_leftmost "https://www.youtube.com/embed" "/" id rest);
      [now right | assumption | reflexivity].
  - apply (resolve_leftmost "https://www.youtube.com/shorts" "/" id rest);
      [now right | assumption | reflexivity].
Qed.

Lemma X2_usual_addresses_witness :
  extract_video_id "https://www.youtube.com/watch?v=dQw4w9WgXcQ&t=43s"
    = Some "dQw4w9WgXcQ"
  /\ extract_video_id "https://youtu.be/dQw4w9WgXcQ&t=43s" = Some "dQw4w9WgXcQ"
  /\ extract_video_id "https://www.youtube.com/embed/dQw4w9WgXcQ&t=43s"
     = Some "dQw4w9WgXcQ"
  /\ extract_video_id "https://www.youtube.com/shorts/dQw4w9WgXcQ&t=43s"
     = Some "dQw4w9WgXcQ".
Proof.
  apply (X2_usual_addresses "dQw4w9WgXcQ" "&t=43s"). reflexivity.
Defined.

(** X3.  A string with neither a [/] nor a [=] in it resolves to nothing: an
    identifier pasted on its own, without an address around it, is refused. *)
Theorem X3_bare_identifier_refused (url : string) :
  all_chars no_marker_char url = true ->
  extract_video_id url = None.
Proof.
  intros Hplain.
  destruct (extract_video_id url) as [id|] eqn:E; [|reflexivity].
  apply extract_video_id_some in E
    as (_ & pre & marker & rest & Hmk & ->).
  rewrite !all_chars_app in Hplain.
  apply andb_true_iff in Hplain as [_ Hplain].
  apply andb_true_iff in Hplain as [Hplain _].
  destruct Hmk as [-> | ->]; discriminate Hplain.
Qed.

Lemma X3_bare_identifier_refused_witness :
  extract_video_id "dQw4w9WgXcQ" = None.
Proof.
  apply (X3_bare_identifier_refused "dQw4w9WgXcQ"). reflexivity.
Defined.



(** *** What is appended never changes an answer *)

Lemma class_run_grow p n s extra r :
  class_run p n s = None -> class_run p n (s ++ extra) = Some r ->
  all_chars p s = true.
Proof.
  revert s; induction n as [|n IH]; intros s Hnone Hsome; simpl in *.
  - discriminate.
  - destruct s as [|c s]; [reflexivity|]. simpl in *.
    destruct (p c); [|discriminate]. simpl. now apply IH.
Qed.

Lemma token_at_grow s extra tok :
  token_at s = None -> token_at (s ++ extra) = Some tok ->
  all_chars token_char s = true.
Proof.
  unfold token_at. intros Hnone Hsome.
  destruct (class_run token_char 11 s) eqn:E1; [discriminate|].
  destruct (class_run token_char 11 (s ++ extra)) eqn:E2; [|discriminate].
  eapply class_run_grow; eauto.
Qed.

Lemma suffix_of_all_chars p t s :
  suffix_of t s -> all_chars p s = true -> all_chars p t = true.
Proof.
  induction 1 as [|c s _ IH]; [auto|]. simpl. intros H.
  apply andb_true_iff in H as [_ H]. auto.
Qed.

(** A marker with its token does not fit into a run of token characters. *)
Lemma hit_needs_separator t tok s :
  token_after_marker t = Some tok -> suffix_of t s ->
  all_chars token_char s = true -> False.
Proof.
  intros Hhit Hsuf Hall.
  apply token_after_marker_split in Hhit as (_ & marker & rest & Hmk & ->).
  apply (suffix_of_all_chars _ _ _ Hsuf) in Hall.
  rewrite all_chars_app in Hall. apply andb_true_iff in Hall as [Hall _].
  destruct Hmk as [-> | ->]; discriminate Hall.
Qed.

(** A position that fails although a later one matches keeps failing when
    the string grows: the marker of the later match stands in its way. *)
Lemma late_hit_blocks c s extra t tok :
  token_after_marker (String c s) = None ->
  suffix_of t s -> token_after_marker t = Some tok ->
  token_after_marker (String c (s ++ extra)) = None.
Proof.
  intros Hnone Hsuf Hhit.
  destruct (token_after_marker (String c (s ++ extra))) as [tok'|] eqn:E;
    [exfalso | reflexivity].
  unfold token_after_marker, after_marker in Hnone, E.
  cbn [lit_match] in Hnone, E.
  destruct (Ascii.eqb "v" c) eqn:Ev.
  - apply Ascii.eqb_eq in Ev. subst c.
    change (Ascii.eqb "/" "v") with false in Hnone, E. cbv iota in Hnone, E.
    destruct s as [|c2 s2].
    + inversion Hsuf; subst. discriminate Hhit.
    + cbn [append] in E. cbv iota in Hnone, E.
      destruct (Ascii.eqb "=" c2) eqn:E2; [|discriminate E].
      apply Ascii.eqb_eq in E2. subst c2.
      destruct (token_at s2) eqn:T1; [discriminate Hnone|].
      destruct (token_at (s2 ++ extra)) eqn:T2; [|discriminate E].
      pose proof (token_at_grow _ _ _ T1 T2) as Hall.
      inversion Hsuf; subst.
      * unfold token_after_marker, after_marker in Hhit.
        cbn [lit_match] in Hhit.
        change (Ascii.eqb "v" "=") with false in Hhit.
        change (Ascii.eqb "/" "=") with false in Hhit.
        discriminate Hhit.
      * eapply hit_needs_separator; eauto.
  - destruct (Ascii.eqb "/" c) eqn:Es; [|discriminate E].
    destruct (token_at s) eqn:T1; [discriminate Hnone|].
    destruct (token_at (s ++ extra)) eqn:T2; [|discriminate E].
    pose proof (token_at_grow _ _ _ T1 T2) as Hall.
    eapply hit_needs_separator; eauto.
Qed.

Lemma re_search_watch_grow s extra m :
  re_search pattern_watch s = Some m ->
  re_search pattern_watch (s ++ extra) = Some m.
Proof.
  induction s as [|c s IH]; intros Hs.
  - discriminate Hs.
  - cbn [re_search] in Hs. change (String c s ++ extra) with (String c (s ++ extra)).
    cbn [re_search]. rewrite re_match_watch in *.
    destruct (token_after_marker (String c s)) as [tok|] eqn:Hhere.
    + apply token_after_marker_split in Hhere
        as (Htok & marker & rest & Hmk & Heq).
      change (String c (s ++ extra)) with (String c s ++ extra).
      rewrite Heq, !append_assoc, token_after_marker_app by assumption.
      exact Hs.
    + cbn [found option_map] in Hs.
      destruct (re_search_some _ _ _ Hs) as (t & Hsuf & Hm).
      rewrite re_match_watch in Hm.
      apply found_some in Hm as (tok & Hhit & _).
      rewrite (late_hit_blocks c s extra t tok Hhere Hsuf Hhit).
      cbn [found option_map]. now apply IH.
Qed.

(** X5.  What is appended to an address never changes its answer: when the
    Resolver finds an identifier in [url], it finds the same identifier in
    [url] followed by anything (a query string, a fragment, a second
    address). *)
Theorem X5_appending_keeps_answer (url extra id : string) :
  extract_video_id url = Some id ->
  extract_video_id (url ++ extra) = Some id.
Proof.
  rewrite !extract_video_id_watch.
  destruct (re_search pattern_watch url) as [m|] eqn:E; [|discriminate].
  now rewrite (re_search_watch_grow _ extra _ E).
Qed.

Lemma X5_appending_keeps_answer_witness :
  extract_video_id
    ("https://youtu.be/dQw4w9WgXcQ" ++ "?list=PL/abcdefghijk&v=ABCDEFGHIJK")
  = Some "dQw4w9WgXcQ".
Proof.
  apply (X5_appending_keeps_answer "https://youtu.be/dQw4w9WgXcQ").
  vm_compute; reflexivity.
Defined.

(** ** The title lookup *)

(** One run of [get_video_title], by the answers of the services. *)
Lemma get_video_title_run video_id w :
  get_video_title video_id w
  = (match requests_get w (watch_url video_id) with
     | inl _ => "Unknown Title"
     | inr content =>
         match soup_find_title w content with
         | inr (Some text) => replace " - YouTube" "" text
         | _ => "Unknown Title"
         end
     end, [EGet (watch_url video_id)]).
Proof.
  unfold get_video_title, watch_url, bind, requests_get_content, ret.
  destruct (requests_get w _) as [e|content]; [reflexivity|].
  destruct (soup_find_title w content) as [e|[text|]]; reflexivity.
Qed.

Lemma get_video_title_found w video_id text :
  title_found w video_id text ->
  result (get_video_title video_id) w = replace " - YouTube" "" text.
Proof.
  intros (content & Hget & Hfind). unfold result.
  now rewrite get_video_title_run, Hget, Hfind.
Qed.

Lemma prefix_app old rest : String.prefix old (old ++ rest) = true.
Proof.
  induction old as [|c old IH]; simpl; [destruct rest; reflexivity|].
  destruct (ascii_dec c c); [exact IH | congruence].
Qed.

Lemma replace_from_skip old new u rest :
  replace_from (String.length u) old new (u ++ rest)
  = replace_from 0 old new rest.
Proof. induction u as [|c u IH]; simpl; [reflexivity | exact IH]. Qed.

(** An occurrence at the head is replaced, and the scan goes on behind it. *)
Lemma replace_at_occurrence old new rest :
  old <> "" ->
  replace old new (old ++ rest) = new ++ replace old new rest.
Proof.
  unfold replace. destruct old as [|c old]; [congruence|]. intros _.
  change (String c old ++ rest) with (String c (old ++ rest)).
  cbn [replace_from].
  change (String c (old ++ rest)) with (String c old ++ rest).
  rewrite prefix_app. cbn [String.length]. rewrite Nat.sub_1_r. cbn [Nat.pred].
  now rewrite replace_from_skip.
Qed.

(** What stands before the first occurrence is kept. *)
Lemma replace_before old new a t :
  occurs_within (String.length a) old (a ++ t) = false ->
  replace old new (a ++ t) = a ++ replace old new t.
Proof.
  unfold replace. induction a as [|c a IH]; [reflexivity|].
  cbn [String.length occurs_within append replace_from].
  intros H. apply orb_false_iff in H as [Hp Ho].
  rewrite Hp. now rewrite IH.
Qed.

Lemma occurs_within_S n old s :
  occurs_within (S n) old s = false -> occurs_within n old s = false.
Proof.
  revert s; induction n as [|n IH]; intros s H; [reflexivity|].
  cbn [occurs_within] in H. apply orb_false_iff in H as [Hp Ho].
  cbn [occurs_within]. rewrite Hp. destruct s as [|c s]; [reflexivity|].
  cbn [orb]. apply IH. exact Ho.
Qed.

(** X6.  Every failure of the title lookup ends in the sentinel: when the
    request raises, when the parser raises, and when the document has no
    [title] tag, [get_video_title] returns ["Unknown Title"] (and has asked
    for the watch page of the identifier, once). *)
Theorem X6_title_sentinel w video_id :
  title_lookup_fails w video_id ->
  result (get_video_title video_id) w = "Unknown Title"
  /\ trace (get_video_title video_id) w = [EGet (watch_url video_id)].
Proof.
  intros Hfail. unfold result, trace. rewrite get_video_title_run.
  split; [|reflexivity]. cbn [fst].
  destruct Hfail as [e Hget | content e Hget Hfind | content Hget Hfind];
    rewrite Hget; [reflexivity| |]; now rewrite Hfind.
Qed.

Lemma X6_title_sentinel_witness :
  result (get_video_title "dQw4w9WgXcQ") offline = "Unknown Title"
  /\ result (get_video_title "dQw4w9WgXcQ")
       (with_title (inl {| str := "bad markup" |}) offline) = "Unknown Title"
  /\ result (get_video_title "dQw4w9WgXcQ") (with_title (inr None) offline)
     = "Unknown Title".
Proof.
  split; [|split].
  - apply (X6_title_sentinel offline "dQw4w9WgXcQ").
    now apply (request_raises _ _ {| str := "connection refused" |}).
  - apply (X6_title_sentinel
             (with_title (inl {| str := "bad markup" |}) offline) "dQw4w9WgXcQ").
    now apply (parser_raises _ _ "<html>" {| str := "bad markup" |}).
  - apply (X6_title_sentinel (with_title (inr None) offline) "dQw4w9WgXcQ").
    now apply (no_title_tag _ _ "<html>").
Defined.

(** X7.  The marker [" - YouTube"] is cut out of the title where it first
    stands, and the rest of the title is treated the same way: a title
    [a ++ " - YouTube" ++ b] in which the marker does not start inside [a]
    gives [a] followed by [b] without its markers.  With [b] empty this is
    the usual page title [name - YouTube], which gives [name]. *)
Theorem X7_title_marker_removed w video_id (a b : string) :
  title_found w video_id (a ++ " - YouTube" ++ b) ->
  occurs_within (String.length a) " - YouTube" (a ++ " - YouTube" ++ b) = false ->
  result (get_video_title video_id) w = a ++ replace " - YouTube" "" b.
Proof.
  intros Hfound Hfirst.
  rewrite (get_video_title_found _ _ _ Hfound).
  rewrite (replace_before _ _ _ _ Hfirst).
  now rewrite replace_at_occurrence by discriminate.
Qed.

Lemma X7_title_marker_removed_witness :
  result (get_video_title "dQw4w9WgXcQ")
    (with_title (inr (Some "Never Gonna Give You Up - YouTube")) offline)
  = "Never Gonna Give You Up".
Proof.
  apply (X7_title_marker_removed
           (with_title (inr (Some "Never Gonna Give You Up - YouTube")) offline)
           "dQw4w9WgXcQ" "Never Gonna Give You Up" "").
  - exists "<html>". split; reflexivity.
  - vm_compute; reflexivity.
Defined.

(** X8.  A title in which [" - YouTube"] does not occur is returned as the
    document has it. *)
Theorem X8_title_without_marker w video_id (text : string) :
  title_found w video_id text ->
  occurs " - YouTube" text = false ->
  result (get_video_title video_id) w = text.
Proof.
  intros Hfound Habsent.
  rewrite (get_video_title_found _ _ _ Hfound).
  rewrite <- (append_empty_r text) at 1.
  rewrite replace_before.
  - unfold replace. cbn [replace_from]. apply append_empty_r.
  - rewrite append_empty_r. now apply occurs_within_S.
Qed.

Lemma X8_title_without_marker_witness :
  result (get_video_title "dQw4w9WgXcQ")
    (with_title (inr (Some "YouTube - Home")) offline)
  = "YouTube - Home".
Proof.
  apply (X8_title_without_marker
           (with_title (inr (Some "YouTube - Home")) offline) "dQw4w9WgXcQ").
  - exists "<html>". split; reflexivity.
  - vm_compute; reflexivity.
Defined.

(** ** The Summarizer: the answer, and the sizes *)

Lemma pre_truncate_length text :
  len (pre_truncate text)
  = if (1000 <? len text)%nat then 1003 else len text.
Proof.
  unfold pre_truncate.
  destruct (Nat.ltb_spec 1000 (len text)) as [Hlong|Hshort];
    [|reflexivity].
  rewrite len_app, len_slice_to.
  change (len "...") with 3. lia.
Qed.

Lemma pre_truncate_again text :
  pre_truncate (pre_truncate text) = pre_truncate text.
Proof.
  unfold pre_truncate at 1. rewrite pre_truncate_length.
  destruct (Nat.ltb_spec 1000 (len text)) as [Hlong|Hshort].
  - change (1000 <? 1003)%nat with true. cbv iota.
    unfold pre_truncate.
    destruct (Nat.ltb_spec 1000 (len text)) as [_|Hshort]; [|lia].
    rewrite slice_to_app;
      [|reflexivity | rewrite len_slice_to; lia].
    now rewrite slice_to_slice_to by lia.
  - destruct (Nat.ltb_spec 1000 (len text)) as [Hlong|_]; [lia|].
    reflexivity.
Qed.

(** X9.  When the capability answers, its first summary is handed back as it
    is: [generate_summary] returns [summary[0]['summary_text']] unchanged
    (whatever its length, and whatever else the answer holds), after making
    the summarizer and invoking it once. *)
Theorem X9_summary_verbatim w text max_length min_length (s : string) :
  summarization_returns w text max_length min_length s ->
  result (generate_summary text max_length min_length) w = s
  /\ trace (generate_summary text max_length min_length) w
     = [summarizer_made;
        ESummarize (pre_truncate text)
          (or_default max_length_default max_length)
          (or_default min_length_default min_length) false].
Proof.
  intros (summarizer & summary & Hmade & Hcall & Htext).
  unfold result, trace. rewrite generate_summary_run. cbv zeta.
  rewrite Hmade. cbn [fst snd]. rewrite Hcall, Htext. split; reflexivity.
Qed.

(** An answer with a second summary and a further key; and a summarizer
    that gives back the text it is invoked on, which for 400 characters of
    three bytes each is the whole text. *)
Lemma X9_summary_verbatim_witness :
  result (generate_summary "A long talk about owls." None None)
    (with_summarizer
       (inr (fun _ _ _ _ =>
               inr [[("score", "1"); ("summary_text", "Owls.")];
                    [("summary_text", "Birds.")]]))
       offline)
  = "Owls."
  /\ result (generate_summary (notes 400) None None)
       (with_summarizer (inr echo) offline)
     = notes 400.
Proof.
  split.
  - apply (X9_summary_verbatim
             (with_summarizer
                (inr (fun _ _ _ _ =>
                        inr [[("score", "1"); ("summary_text", "Owls.")];
                             [("summary_text", "Birds.")]]))
                offline)
             "A long talk about owls." None None "Owls.").
    eexists; eexists. split; [reflexivity|]. split; reflexivity.
  - apply (X9_summary_verbatim (with_summarizer (inr echo) offline)
             (notes 400) None None (notes 400)).
    exists echo, [[("summary_text", notes 400)]].
    split; [reflexivity|]. split; vm_compute; reflexivity.
Defined.

(** X10.  The fallback has a fixed size: when the capability fails with [e]
    on [text], the string returned is 67 characters of fixed wording, the
    message of [e], and the first 500 characters of [text] or all of it when
    it is shorter.  It is never longer than the message plus 567. *)
Theorem X10_fallback_size w text max_length min_length e :
  summarization_fails w text max_length min_length e ->
  len (result (generate_summary text max_length min_length) w)
  = 67 + len (str e) + Nat.min 500 (len text).
Proof.
  intros Hfail. rewrite (generate_summary_fallback _ _ _ _ _ Hfail).
  unfold summary_failed. rewrite !len_app, len_slice_to.
  change (len "Summary generation failed: ") with 27.
  change (len ". Here are the first 500 characters: ") with 37.
  change (len "...") with 3. lia.
Qed.

(** A text of 1200 characters is cut to 500; one of 200 characters of three
    bytes each is there whole. *)
Lemma X10_fallback_size_witness :
  len (result (generate_summary (text_of_length 1200) None None) offline)
  = 67 + 17 + 500
  /\ len (result (generate_summary (notes 200) None None) offline)
     = 67 + 17 + 200.
Proof.
  split.
  - apply (X10_fallback_size offline (text_of_length 1200) None None
             {| str := "model unavailable" |}).
    now apply fails_at_init.
  - apply (X10_fallback_size offline (notes 200) None None
             {| str := "model unavailable" |}).
    now apply fails_at_init.
Defined.

(** X11.  The text the capability is invoked on is never longer than 1003
    characters, and it is exactly 1003 long whenever the input is longer
    than 1000: an input of 1001 or 1002 characters is handed on longer than
    it came.  The text meant is the one the summarizer is applied to: the
    run returns what its answer on this text gives. *)
Theorem X11_invocation_size w text max_length min_length summarizer :
  make_summarizer w = inr summarizer ->
  exists passed,
    generate_summary text max_length min_length w
    = (answered (summarizer passed
                   (or_default max_length_default max_length)
                   (or_default min_length_default min_length) false)
         passed,
       [summarizer_made;
        ESummarize passed
          (or_default max_length_default max_length)
          (or_default min_length_default min_length) false])
    /\ len passed <= 1003
    /\ (1000 < len text -> len passed = 1003).
Proof.
  intros Hmade. exists (pre_truncate text).
  split; [exact (generate_summary_made _ _ _ _ _ Hmade)|].
  rewrite pre_truncate_length.
  destruct (Nat.ltb_spec 1000 (len text)); split; lia.
Qed.

(** A text of 1001 characters comes back, from a summarizer that gives back
    the text it is invoked on, 1003 characters long. *)
Lemma X11_invocation_size_witness :
  len (result (generate_summary (text_of_length 1001) None None)
         (with_summarizer (inr echo) offline))
  = 1003.
Proof.
  destruct (X11_invocation_size (with_summarizer (inr echo) offline)
              (text_of_length 1001) None None echo)
    as (passed & Hrun & _ & Hlong); [reflexivity|].
  unfold result. rewrite Hrun. cbn [fst].
  change (answered (echo passed (or_default max_length_default None)
                      (or_default min_length_default None) false) passed)
    with passed.
  apply Hlong. apply Nat.ltb_lt. vm_compute; reflexivity.
Defined.

(** X12.  Cutting is idempotent: on a text that was cut already,
    [generate_summary] does exactly what it does on the original text --
    the same invocation of the capability, on the same text, and the same
    string returned, also when the capability fails. *)
Theorem X12_cut_once w text max_length min_length :
  generate_summary (pre_truncate text) max_length min_length w
  = generate_summary text max_length min_length w.
Proof.
  rewrite !generate_summary_run. cbv zeta. rewrite pre_truncate_again.
  destruct (make_summarizer w) as [e|summarizer]; [|reflexivity].
  now rewrite summary_failed_pre_truncate.
Qed.

(** ** The Acquirer: where an answer comes from *)

(** A text for every segment: the comprehension and the join went through. *)
Lemma items_at_all_str (transcript : list (dict pyval)) :
  forall vs texts,
    items_at transcript "text" = inr vs -> all_str vs = inr texts ->
    Forall2 (fun item text => getitem item "text" = inr (PStr text))
            transcript texts.
Proof.
  induction transcript as [|item transcript IH]; intros vs texts Hitems Hstr;
    simpl in Hitems.
  - inversion Hitems; subst. simpl in Hstr. inversion Hstr. constructor.
  - destruct (getitem item "text") as [e|v] eqn:Hv; [discriminate|].
    destruct (items_at transcript "text") as [e|vs'] eqn:Hvs; [discriminate|].
    inversion Hitems; subst vs; clear Hitems.
    destruct v as [text|]; simpl in Hstr; [|discriminate].
    destruct (all_str vs') as [e|texts'] eqn:Hss; [discriminate|].
    inversion Hstr; subst texts; clear Hstr.
    constructor; [exact Hv | now apply (IH vs')].
Qed.

Lemma get_transcript_clean w video_id transcript texts :
  YouTubeTranscriptApi_get_transcript w video_id = inr transcript ->
  Forall2 (fun item text => getitem item "text" = inr (PStr text))
          transcript texts ->
  result (get_transcript video_id) w
  = (Some (join " " texts), List.length texts).
Proof.
  intros Hfetch Htexts.
  unfold result. rewrite get_transcript_run, Hfetch. cbn [fst].
  rewrite (items_at_texts _ _ Htexts). unfold str_join.
  rewrite all_str_map. now rewrite (Forall2_length Htexts).
Qed.

Lemma join_length (texts : list string) :
  len (join " " texts)
  = total_length texts + (List.length texts - 1).
Proof.
  induction texts as [|x texts IH]; [reflexivity|].
  destruct texts as [|y texts];
    [cbn [join total_length List.length]; lia|].
  change (join " " (x :: y :: texts)) with (x ++ " " ++ join " " (y :: texts)).
  rewrite !len_app, IH. change (len " ") with 1.
  cbn [total_length List.length]. lia.
Qed.

(** X13.  What [get_transcript] returns tells where it comes from.  A text
    is returned only for an answer of the retrieval capability in which
    every segment has a string under [text]; it is then these strings
    joined by single spaces, and the count is the number of segments.  The
    other result is [(None, 0)], returned only when the retrieval failed:
    there is no text with a wrong count and no count without a text. *)
Theorem X13_transcript_origin w video_id :
  match result (get_transcript video_id) w with
  | (Some full_text, sentence_count) =>
      exists transcript texts,
        YouTubeTranscriptApi_get_transcript w video_id = inr transcript
        /\ Forall2 (fun item text => getitem item "text" = inr (PStr text))
                   transcript texts
        /\ full_text = join " " texts
        /\ sentence_count = List.length transcript
  | (None, sentence_count) =>
      sentence_count = 0 /\ retrieval_fails w video_id
  end.
Proof.
  unfold result. rewrite get_transcript_run. cbn [fst].
  destruct (YouTubeTranscriptApi_get_transcript w video_id)
    as [e|transcript] eqn:Hfetch.
  - split; [reflexivity | now apply (raises _ _ e)].
  - destruct (items_at transcript "text") as [e|vs] eqn:Hitems.
    + split; [reflexivity | now apply (segment_without_text _ _ transcript e)].
    + unfold str_join.
      destruct (all_str vs) as [e|texts] eqn:Hstr.
      * split; [reflexivity|].
        apply (text_not_str _ _ transcript vs e); auto.
        unfold str_join. now rewrite Hstr.
      * exists transcript, texts. repeat split.
        now apply (items_at_all_str transcript vs).
Qed.

(** ** The page: what a run shows and what it calls *)

Lemma external_calls_app t1 t2 :
  external_calls (t1 ++ t2)%list
  = (external_calls t1 ++ external_calls t2)%list.
Proof. apply filter_app. Qed.

Lemma external_calls_generate_summary text max_length min_length w :
  external_calls (trace (generate_summary text max_length min_length) w)
  = summarizer_made
    :: match make_summarizer w with
       | inr _ =>
           [ESummarize (pre_truncate text)
              (or_default max_length_default max_length)
              (or_default min_length_default min_length) false]
       | inl _ => []
       end.
Proof.
  unfold trace. rewrite generate_summary_run. cbv zeta.
  destruct (make_summarizer w); reflexivity.
Qed.

(** What a run of [main] shows, by the input and the outcome of the stages. *)
Lemma page_main w :
  page (trace main w)
  = (page page_header
     ++ if st_button w then
          if truthy (st_text_input w) then
            spinner processing_message
            :: match extract_video_id (st_text_input w) with
               | None => [error invalid_url_message]
               | Some video_id =>
                   page (video_information (st_text_input w) video_id
                           (result (get_video_title video_id) w))
                   ++ match result (get_transcript video_id) w with
                      | (Some transcript, sentence_count) =>
                          if truthy transcript then
                            page (transcript_metrics transcript sentence_count)
                            ++ page (summary_shown video_id transcript
                                       (result (generate_summary transcript
                                                  None None) w))
                          else [error no_transcript_message]
                      | (None, _) => [error no_transcript_message]
                      end
               end
          else [warning enter_url_message]
        else [info get_started_message; markdown how_to_use])%list.
Proof.
  rewrite main_trace, page_app. f_equal.
  destruct (st_button w); [|reflexivity].
  destruct (truthy (st_text_input w)); [|reflexivity].
  cbn [page]. f_equal. rewrite process_video_trace.
  destruct (extract_video_id (st_text_input w)) as [video_id|]; [|reflexivity].
  rewrite page_app. f_equal.
  destruct (result (get_transcript video_id) w) as [[transcript|] n];
    [|reflexivity].
  destruct (truthy transcript); [|reflexivity].
  now rewrite show_summary_trace, !page_app, generate_summary_page.
Qed.

(** What a run of [main] calls outside the page. *)
Lemma external_calls_main w :
  external_calls (trace main w)
  = if st_button w && truthy (st_text_input w) then
      match extract_video_id (st_text_input w) with
      | None => []
      | Some video_id =>
          EGet (watch_url video_id) :: EGetTranscript video_id
          :: match result (get_transcript video_id) w with
             | (Some transcript, _) =>
                 if truthy transcript then
                   external_calls (trace (generate_summary transcript None None) w)
                 else []
             | (None, _) => []
             end
      end
    else [].
Proof.
  rewrite main_trace, external_calls_app.
  change (external_calls page_header) with (@nil event). cbn [app].
  destruct (st_button w); [|reflexivity].
  destruct (truthy (st_text_input w)); [|reflexivity].
  cbn [andb]. change (external_calls (?e :: ?t)) with (external_calls t).
  rewrite process_video_trace.
  destruct (extract_video_id (st_text_input w)) as [video_id|]; [|reflexivity].
  rewrite external_calls_app.
  change (external_calls (video_information (st_text_input w) video_id
                            (result (get_video_title video_id) w)))
    with [EGet (watch_url video_id); EGetTranscript video_id].
  cbn [app]. do 2 f_equal.
  destruct (result (get_transcript video_id) w) as [[transcript|] n];
    [|reflexivity].
  destruct (truthy transcript); [|reflexivity].
  rewrite show_summary_trace, !external_calls_app.
  change (external_calls (transcript_metrics transcript n)) with (@nil event).
  change (external_calls (summary_shown video_id transcript
                            (result (generate_summary transcript None None) w)))
    with (@nil event).
  cbn [app]. apply app_nil_r.
Qed.

Lemma title_lookup_fails_result w video_id :
  title_lookup_fails w video_id ->
  result (get_video_title video_id) w = "Unknown Title".
Proof.
  intros Hfail. unfold result. rewrite get_video_title_run. cbn [fst].
  destruct Hfail as [e Hget | content e Hget Hfind | content Hget Hfind];
    rewrite Hget; [reflexivity| |]; now rewrite Hfind.
Qed.

(** X14.  The two figures shown above the summary.  For a transcript of [N]
    segments with the texts [texts], the page shows [N] under "Sentences in
    Transcript" (the number of caption segments, whatever the sentences are)
    and, under "Characters in Transcript", the characters of all texts plus
    the [N - 1] spaces between them. *)
Theorem X14_metrics w video_id transcript texts :
  submitted w ->
  extract_video_id (st_text_input w) = Some video_id ->
  YouTubeTranscriptApi_get_transcript w video_id = inr transcript ->
  Forall2 (fun item text => getitem item "text" = inr (PStr text))
          transcript texts ->
  truthy (join " " texts) = true ->
  In (metric "Sentences in Transcript" (List.length texts))
     (page (trace main w))
  /\ In (metric "Characters in Transcript"
           (total_length texts + (List.length texts - 1)))
        (page (trace main w)).
Proof.
  intros [Hb Hu] Hid Hfetch Htexts Htruthy.
  rewrite page_main, Hb, Hu, Hid.
  rewrite (get_transcript_clean _ _ _ _ Hfetch Htexts), Htruthy.
  rewrite <- join_length.
  split; apply in_or_app; right; right; apply in_or_app; right;
    apply in_or_app; left; cbn [transcript_metrics page In]; auto.
Qed.

(** Three segments of 21 characters in all; and one segment of 6
    characters, two of them of three bytes each. *)
Lemma X14_metrics_witness :
  (let w := with_input "https://youtu.be/dQw4w9WgXcQ"
              (with_transcript
                 (inr [segment "never gonna"; segment "give you"; segment "up"])
                 offline) in
   In (metric "Sentences in Transcript" 3) (page (trace main w))
   /\ In (metric "Characters in Transcript" (21 + 2)) (page (trace main w)))
  /\ (let w := with_input "https://youtu.be/dQw4w9WgXcQ"
                 (with_transcript (inr [segment "♪ la ♪"]) offline) in
      In (metric "Sentences in Transcript" 1) (page (trace main w))
      /\ In (metric "Characters in Transcript" (6 + 0)) (page (trace main w))).
Proof.
  split; intros w.
  - apply (X14_metrics w "dQw4w9WgXcQ"
             [segment "never gonna"; segment "give you"; segment "up"]
             ["never gonna"; "give you"; "up"]).
    + split; reflexivity.
    + vm_compute; reflexivity.
    + reflexivity.
    + repeat constructor.
    + reflexivity.
  - apply (X14_metrics w "dQw4w9WgXcQ" [segment "♪ la ♪"] ["♪ la ♪"]).
    + split; reflexivity.
    + vm_compute; reflexivity.
    + reflexivity.
    + repeat constructor.
    + reflexivity.
Defined.

(** X15.  Before the button is pressed the page is the same whatever was
    typed and whatever the services would answer: the invitation and the
    instructions, no notice, no download, and no call outside the page. *)
Theorem X15_idle_page w :
  st_button w = false ->
  external_calls (trace main w) = []
  /\ notices (trace main w) = []
  /\ downloads (page (trace main w)) = []
  /\ In (info get_started_message) (page (trace main w))
  /\ In (markdown how_to_use) (page (trace main w))
  /\ forall w', st_button w' = false -> trace main w' = trace main w.
Proof.
  intros Hb. rewrite external_calls_main. unfold notices.
  rewrite page_main, Hb.
  split; [reflexivity|]. split; [reflexivity|]. split; [reflexivity|].
  split; [|split].
  - apply in_or_app. right. left. reflexivity.
  - apply in_or_app. right. right. left. reflexivity.
  - intros w' Hb'. now rewrite !main_trace, Hb, Hb'.
Qed.

Lemma X15_idle_page_witness :
  external_calls (trace main offline) = []
  /\ notices (trace main offline) = []
  /\ downloads (page (trace main offline)) = []
  /\ In (info get_started_message) (page (trace main offline))
  /\ In (markdown how_to_use) (page (trace main offline))
  /\ trace main (with_title (inr (Some "A title")) offline)
     = trace main offline.
Proof.
  destruct (X15_idle_page offline)
    as (Hcalls & Hnotices & Hfiles & Hinfo & Hhow & Hsame);
    [reflexivity|].
  split; [exact Hcalls|]. split; [exact Hnotices|]. split; [exact Hfiles|].
  split; [exact Hinfo|]. split; [exact Hhow|]. apply Hsame. reflexivity.
Defined.

(** X16.  The button pressed on an empty input gives the warning to enter a
    URL and nothing else: the Resolver's error for an invalid URL is not
    shown, no summary, no download. *)
Theorem X16_empty_input w :
  st_button w = true -> st_text_input w = "" ->
  notices (trace main w) = [warning enter_url_message]
  /\ shown_summary (page (trace main w)) = None
  /\ downloads (page (trace main w)) = [].
Proof.
  intros Hb Hu. unfold notices. rewrite page_main, Hb, Hu.
  repeat split.
Qed.

Lemma X16_empty_input_witness :
  notices (trace main (with_input "" offline)) = [warning enter_url_message]
  /\ shown_summary (page (trace main (with_input "" offline))) = None
  /\ downloads (page (trace main (with_input "" offline))) = [].
Proof.
  apply (X16_empty_input (with_input "" offline)); reflexivity.
Defined.

(** X17.  The calls a run makes outside the page, and their order.  Once
    the Resolver has found an identifier, the run asks for the watch page
    of that identifier, then for its transcript; when the transcript is
    usable it makes the summarizer and, if that succeeded, invokes it once,
    on the (cut) transcript with the bounds 150 and 30 and sampling off.
    Nothing else is called, and nothing is called twice.  The invocation is
    the one whose answer the page shows as the summary. *)
Theorem X17_call_order w video_id :
  submitted w ->
  extract_video_id (st_text_input w) = Some video_id ->
  external_calls (trace main w)
  = EGet (watch_url video_id) :: EGetTranscript video_id
    :: match result (get_transcript video_id) w with
       | (Some transcript, _) =>
           if truthy transcript then
             summarizer_made
             :: match make_summarizer w with
                | inr _ => [ESummarize (pre_truncate transcript) 150 30 false]
                | inl _ => []
                end
           else []
       | (None, _) => []
       end
  /\ (forall transcript sentence_count summarizer,
        result (get_transcript video_id) w = (Some transcript, sentence_count) ->
        truthy transcript = true ->
        make_summarizer w = inr summarizer ->
        shown_summary (page (trace main w))
        = Some (answered
                  (summarizer (pre_truncate transcript) 150%Z 30%Z false)
                  (pre_truncate transcript))).
Proof.
  intros [Hb Hu] Hid. split.
  - rewrite external_calls_main, Hb, Hu, Hid. cbn [andb]. do 2 f_equal.
    destruct (result (get_transcript video_id) w) as [[transcript|] n];
      [|reflexivity].
    destruct (truthy transcript); [|reflexivity].
    apply external_calls_generate_summary.
  - intros transcript n summarizer Hgot Htruthy Hmade.
    rewrite (main_summarized_page _ _ _ _ (conj Hb Hu) Hid Hgot Htruthy).
    unfold result.
    rewrite (generate_summary_made transcript None None w summarizer Hmade).
    apply summary_page_notices.
Qed.

(** A run with a summarizer that gives back the text it is invoked on: the
    four calls, and the transcript as the summary shown. *)
Lemma X17_call_order_witness :
  let w := with_input "https://youtu.be/dQw4w9WgXcQ"
             (with_transcript (inr [segment "hello"])
                (with_summarizer (inr echo) offline)) in
  external_calls (trace main w)
  = [EGet "https://www.youtube.com/watch?v=dQw4w9WgXcQ";
     EGetTranscript "dQw4w9WgXcQ";
     summarizer_made;
     ESummarize "hello" 150 30 false]
  /\ shown_summary (page (trace main w)) = Some "hello".
Proof.
  intros w.
  destruct (X17_call_order w "dQw4w9WgXcQ") as [Hcalls Hshown].
  - split; reflexivity.
  - vm_compute; reflexivity.
  - split; [exact Hcalls|].
    apply (Hshown "hello" 1 echo); reflexivity.
Defined.

(** X18.  Downloads go with the summary.  In every run, when the page shows
    a summary it offers exactly two files, [summary_<id>.txt] holding the
    summary as shown and [transcript_<id>.txt] holding the full transcript,
    where [<id>] is the identifier the Resolver found; when the page shows
    no summary it offers no file. *)
Theorem X18_downloads w :
  match shown_summary (page (trace main w)) with
  | Some summary =>
      exists video_id transcript,
        extract_video_id (st_text_input w) = Some video_id
        /\ fst (result (get_transcript video_id) w) = Some transcript
        /\ summary = result (generate_summary transcript None None) w
        /\ downloads (page (trace main w))
           = [("summary_" ++ video_id ++ ".txt", summary);
              ("transcript_" ++ video_id ++ ".txt", transcript)]
  | None => downloads (page (trace main w)) = []
  end.
Proof.
  rewrite page_main.
  destruct (st_button w); [|reflexivity].
  destruct (truthy (st_text_input w)); [|reflexivity].
  destruct (extract_video_id (st_text_input w)) as [video_id|]; [|reflexivity].
  destruct (result (get_transcript video_id) w) as [[transcript|] n] eqn:Hgot;
    [|reflexivity].
  destruct (truthy transcript); [|reflexivity].
  exists video_id, transcript. repeat split. now rewrite Hgot.
Qed.

(** X19.  A failed title lookup does not stop the run: the page shows the
    sentinel as the title and goes on to fetch the transcript of the
    identifier. *)
Theorem X19_title_failure_goes_on w video_id :
  submitted w ->
  extract_video_id (st_text_input w) = Some video_id ->
  title_lookup_fails w video_id ->
  In (write "**Title:** Unknown Title") (page (trace main w))
  /\ In (EGetTranscript video_id) (external_calls (trace main w)).
Proof.
  intros [Hb Hu] Hid Hfail. split.
  - rewrite page_main, Hb, Hu, Hid, (title_lookup_fails_result _ _ Hfail).
    apply in_or_app. right. right. apply in_or_app. left.
    cbn [video_information page In]. auto.
  - rewrite external_calls_main, Hb, Hu, Hid. cbn [andb In]. auto.
Qed.

Lemma X19_title_failure_goes_on_witness :
  let w := with_input "https://youtu.be/dQw4w9WgXcQ" offline in
  In (write "**Title:** Unknown Title") (page (trace main w))
  /\ In (EGetTranscript "dQw4w9WgXcQ") (external_calls (trace main w)).
Proof.
  intros w. apply (X19_title_failure_goes_on w "dQw4w9WgXcQ").
  - split; reflexivity.
  - vm_compute; reflexivity.
  - now apply (request_raises _ _ {| str := "connection refused" |}).
Defined.
